(** * The user-management screen of [src/src/App.tsx]

    A shallow embedding of the two flows of the [App] component:
    the listing flow (the page-fetch effect and the "Show more" button) and
    the create-user flow ([onClickUserCreate], [reqCreateUser]).

    Conventions of the embedding.
    - React state and refs are the fields of the record [State]; a state
      setter is a function [State -> State].
    - A handler closes over the values of the render it was created in
      ([seen] and [selectedPosition] are read from that closure, not from
      the current state): the record [Closure] holds them.
    - The remote service is a script of answers.  Every request the code
      issues, and every [alert], is recorded in a trace together with the
      state in which it was issued.
    - [console.log] output is not modelled. *)

From Stdlib Require Import ZArith.
From stdpp Require Import gmap strings list fin_maps.

Open Scope string_scope.
Open Scope Z_scope.
Open Scope list_scope.

(** ** Data model (lines 13-73) *)

Record User := {
  id : string;
  name : string;
  email : string;
  phone : string;
  photo : string;
  position : string;
  position_id : Z;
  registration_timestamp : Z
}.

(** [CreateUser = Pick<User, 'name' | 'email' | 'phone' | 'photo' | 'position_id'>],
    the values Formik hands to [onSubmit]. *)
Record CreateUser := {
  cu_name : string;
  cu_email : string;
  cu_phone : string;
  cu_photo : string;
  cu_position_id : Z
}.

Record Links := {
  next_url : option string;
  prev_url : option string
}.

Record GetUserResponse := {
  total_pages : Z;
  total_users : Z;
  count : Z;
  links : Links;
  page_users : list User            (* the field [users] of the response *)
}.

Record Position := {
  pos_id : Z;
  pos_name : string
}.

Record PositionOption := {
  value : Z;
  label : string
}.

(** An entry of the [FileList] of the photo input. *)
Record File := {
  file_name : string;
  file_size : Z
}.

(** The body of a failed [POST /users]: [success] is kept as its
    truthiness, [fails] is [None] when the property is absent (falsy),
    otherwise the entries of the object in [Object.entries] order. *)
Record ErrorBody := {
  success : bool;
  fails : option (list (string * list string))
}.

(** [error.response]: [data] is [None] when the response has no body
    ([undefined] or [null]). *)
Record HttpResponse := {
  status : Z;
  data : option ErrorBody
}.

(** What a [catch] clause receives.  [response] is [None] for an error
    without an HTTP response: a network failure, or an exception that is
    not an axios error at all. *)
Record Caught := {
  response : option HttpResponse
}.

(** ** Component state (lines 76-86) *)

Record State := {
  currPage : string;
  nextPage : option string;
  users : list User;
  seen : bool;
  token : option string;
  positions : list Position;
  selectedPosition : option PositionOption;
  tokenRef : option string;              (* tokenRef.current *)
  fileRef : option (list File);          (* fileRef.current?.files; None = null *)
  formErrors : gmap string string        (* Formik's error object *)
}.

(** The values a handler captured from the render that created it. *)
Record Closure := {
  cl_seen : bool;
  cl_selectedPosition : option PositionOption
}.

Definition render (st : State) : Closure :=
  {| cl_seen := seen st; cl_selectedPosition := selectedPosition st |}.

Definition baseURL : string :=
  "https://abzagency-test-production.up.railway.app/api/v1".

Definition TOKEN_ERROR_MESSAGE : string :=
  "Cannot authorize to create user please try again and verify your internet connection".

Definition TOKEN_EXPIRED_MESSAGE : string :=
  "Your token has expired and will be updated now.".

Definition CREATED_MESSAGE : string := "Successfully created user".

Definition CONNECTION_MESSAGE : string := "Check your internet connection".

Definition initialState : State :=
  {| currPage := baseURL +:+ "/users?page=1&count=6";
     nextPage := None;
     users := [];
     seen := false;
     token := None;
     positions := [];
     selectedPosition := None;
     tokenRef := None;
     fileRef := None;
     formErrors := ∅ |}.

(** ** Requests, alerts and traces *)

(** The multipart body of line 181-185:
    [{...values, position_id: selectedPosition?.value, photo: files[0]}]. *)
Record Payload := {
  p_name : string;
  p_email : string;
  p_phone : string;
  p_position_id : option Z;
  p_photo : option File
}.

Inductive Event :=
| GetToken                                        (* GET /token *)
| PostUsers (body : Payload) (Token : string)     (* POST /users, header Token *)
| GetUser (userId : string)                       (* GET /users/:id *)
| GetUsers (url : string)                         (* GET currPage *)
| GetPositions                                    (* GET /positions *)
| Alert (msg : string).                           (* window.alert *)

(** An event with the state in which it happened. *)
Definition Trace := list (State * Event).

Inductive JsError := TypeError.

(** How the promise of an async handler ends.  [Pending]: the script of
    answers ran out before the handler finished. *)
Inductive Outcome :=
| Resolved
| Rejected (e : JsError)
| Pending.

Record Run := {
  final : State;
  trace : Trace;
  outcome : Outcome
}.

(** The answers of the service to one pass through [reqCreateUser]:
    to [GET /token] (used only when that pass asks), to [POST /users],
    and to the [GET /users/:id] that follows an accepted POST. *)
Record Attempt := {
  tokenReply : option string;          (* Some token, or None: request failed *)
  postReply : string + Caught;         (* user_id, or the error *)
  getReply : User + Caught
}.

(** ** Setters and small helpers *)

(** JavaScript truthiness of a [string | null]: the value when it is a
    non-empty string. *)
Definition truthy (t : option string) : option string :=
  match t with
  | Some s => if String.eqb s "" then None else Some s
  | None => None
  end.

(** [Array.prototype.join]. *)
Fixpoint join (sep : string) (l : list string) : string :=
  match l with
  | [] => ""
  | [s] => s
  | s :: rest => s +:+ sep +:+ join sep rest
  end.

Definition setUsers (f : list User -> list User) (st : State) : State :=
  {| currPage := currPage st; nextPage := nextPage st; users := f (users st);
     seen := seen st; token := token st; positions := positions st;
     selectedPosition := selectedPosition st; tokenRef := tokenRef st;
     fileRef := fileRef st; formErrors := formErrors st |}.

Definition setNextPage (n : option string) (st : State) : State :=
  {| currPage := currPage st; nextPage := n; users := users st;
     seen := seen st; token := token st; positions := positions st;
     selectedPosition := selectedPosition st; tokenRef := tokenRef st;
     fileRef := fileRef st; formErrors := formErrors st |}.

Definition setCurrPage (p : string) (st : State) : State :=
  {| currPage := p; nextPage := nextPage st; users := users st;
     seen := seen st; token := token st; positions := positions st;
     selectedPosition := selectedPosition st; tokenRef := tokenRef st;
     fileRef := fileRef st; formErrors := formErrors st |}.

Definition setPositions (ps : list Position) (st : State) : State :=
  {| currPage := currPage st; nextPage := nextPage st; users := users st;
     seen := seen st; token := token st; positions := ps;
     selectedPosition := selectedPosition st; tokenRef := tokenRef st;
     fileRef := fileRef st; formErrors := formErrors st |}.

Definition setSelectedPosition (o : option PositionOption) (st : State) : State :=
  {| currPage := currPage st; nextPage := nextPage st; users := users st;
     seen := seen st; token := token st; positions := positions st;
     selectedPosition := o; tokenRef := tokenRef st;
     fileRef := fileRef st; formErrors := formErrors st |}.

(** [setSeen]: the form, and with it the photo input that [fileRef] points
    to, is rendered exactly when [seen] holds (line 227); showing it mounts
    an input with no file chosen and a fresh Formik, hiding it resets the
    ref to null. Setting the value it already has changes nothing. *)
Definition setSeen (b : bool) (st : State) : State :=
  if Bool.eqb b (seen st) then st
  else
    {| currPage := currPage st; nextPage := nextPage st; users := users st;
       seen := b; token := token st; positions := positions st;
       selectedPosition := selectedPosition st; tokenRef := tokenRef st;
       fileRef := if b then Some [] else None;
       formErrors := if b then ∅ else formErrors st |}.

(** Lines 135-138. *)
Definition setToken (newToken : option string) (st : State) : State :=
  {| currPage := currPage st; nextPage := nextPage st; users := users st;
     seen := seen st; token := newToken; positions := positions st;
     selectedPosition := selectedPosition st; tokenRef := newToken;
     fileRef := fileRef st; formErrors := formErrors st |}.

(** Lines 140-142: [setSeen(!seen)] with the [seen] of the closure. *)
Definition togglePopCreateUser (cl : Closure) (st : State) : State :=
  setSeen (negb (cl_seen cl)) st.

(** [formikHelper.setFieldError(key, message)]. *)
Definition setFieldError (key message : string) (st : State) : State :=
  {| currPage := currPage st; nextPage := nextPage st; users := users st;
     seen := seen st; token := token st; positions := positions st;
     selectedPosition := selectedPosition st; tokenRef := tokenRef st;
     fileRef := fileRef st; formErrors := <[key := message]> (formErrors st) |}.

(** The loop of lines 206-210 over [Object.entries(fails)]. *)
Definition setFieldErrors (entries : list (string * list string)) (st : State) : State :=
  foldl (fun s kv => setFieldError (fst kv) (join ". " (snd kv)) s) st entries.

Definition payload (cl : Closure) (values : CreateUser) (files : list File) : Payload :=
  {| p_name := cu_name values;
     p_email := cu_email values;
     p_phone := cu_phone values;
     p_position_id := value <$> cl_selectedPosition cl;
     p_photo := head files |}.

(** ** The create-user flow *)

(** Lines 148-158, with the answer of the service to [GET /token]. *)
Definition onClickUserCreate (cl : Closure) (reply : option string) (st : State) : Run :=
  match reply with
  | Some t =>
      {| final := togglePopCreateUser cl (setToken (Some t) st);
         trace := [(st, GetToken)];
         outcome := Resolved |}
  | None =>
      {| final := st;
         trace := [(st, GetToken); (st, Alert TOKEN_ERROR_MESSAGE)];
         outcome := Resolved |}
  end.

(** The [try] block of lines 178-199 under the token [userToken]: the
    state and the requests it made, and the error it threw, if any.
    Reading [fileRef.current.files] of a null ref throws before any request
    is made. *)
Definition tryCreate (cl : Closure) (values : CreateUser) (srv : Attempt)
    (userToken : string) (st : State) : State * Trace * option Caught :=
  match fileRef st with
  | None => (st, [], Some {| response := None |})
  | Some files =>
      let post := (st, PostUsers (payload cl values files) userToken) in
      match postReply srv with
      | inr error => (st, [post], Some error)
      | inl userId =>
          let get := (st, GetUser userId) in
          match getReply srv with
          | inr error => (st, [post; get], Some error)
          | inl user =>
              let st1 := setUsers (fun currentUsers => user :: currentUsers) st in
              let st2 := togglePopCreateUser cl st1 in
              (st2, [post; get; (st2, Alert CREATED_MESSAGE)], None)
          end
      end
  end.

(** Lines 160-220.  [script] holds the answers of the service for this
    pass and for the nested ones.

    The [finally] block of the pass that retries runs as soon as the nested
    call has handed back its promise ([return reqCreateUser(...)] does not
    await it), that is before the nested pass receives its first answer;
    the nested pass has by then only read [tokenRef.current], which line
    214 has just set to null.  The promise of the outer pass then settles
    as the nested one does. *)
Fixpoint reqCreateUser (cl : Closure) (values : CreateUser)
    (script : list Attempt) (st : State) : Run :=
  match script with
  | [] => {| final := st; trace := []; outcome := Pending |}
  | srv :: rest =>
      (* lines 164-176 *)
      let acquired : (string * State * Trace) + Run :=
        match truthy (tokenRef st) with
        | Some userToken => inl (userToken, st, [])
        | None =>
            match tokenReply srv with
            | Some t => inl (t, setToken (Some t) st, [(st, GetToken)])
            | None =>
                inr {| final := togglePopCreateUser cl st;
                       trace := [(st, GetToken); (st, Alert TOKEN_ERROR_MESSAGE)];
                       outcome := Resolved |}
            end
        end in
      match acquired with
      | inr early => early
      | inl (userToken, st1, tr1) =>
          (* lines 178-199 *)
          match tryCreate cl values srv userToken st1 with
          | (st2, tr2, None) =>
              {| final := setToken None st2;
                 trace := tr1 ++ tr2;
                 outcome := Resolved |}
          | (st2, tr2, Some error) =>
              (* lines 200-216 *)
              match response error with
              | None =>
                  {| final := setToken None st2;
                     trace := tr1 ++ tr2;
                     outcome := Rejected TypeError |}
              | Some resp =>
                  match data resp with
                  | None =>
                      {| final := setToken None st2;
                         trace := tr1 ++ tr2;
                         outcome := Rejected TypeError |}
                  | Some body =>
                      let st3 :=
                        match fails body with
                        | Some entries =>
                            if (status resp =? 422) && negb (success body)
                            then setFieldErrors entries st2
                            else st2
                        | None => st2
                        end in
                      if (status resp =? 401) && negb (success body) then
                        let st4 := setToken None st3 in            (* line 214 *)
                        let st5 := setToken None st4 in            (* line 218 *)
                        let nested := reqCreateUser cl values rest st5 in
                        {| final := final nested;
                           trace := tr1 ++ tr2
                                    ++ [(st3, Alert TOKEN_EXPIRED_MESSAGE)]
                                    ++ trace nested;
                           outcome := outcome nested |}
                      else
                        {| final := setToken None st3;
                           trace := tr1 ++ tr2;
                           outcome := Resolved |}
                  end
              end
          end
      end
  end.

(** What Formik does to its error object when the form is submitted,
    before it calls [onSubmit]: it replaces it by the result of validation,
    which is empty here, as the form declares neither [validate] nor
    [validationSchema] (lines 229-233). *)
Definition resetFieldErrors (st : State) : State :=
  {| currPage := currPage st; nextPage := nextPage st; users := users st;
     seen := seen st; token := token st; positions := positions st;
     selectedPosition := selectedPosition st; tokenRef := tokenRef st;
     fileRef := fileRef st; formErrors := ∅ |}.

(** A click on Submit.  Formik's [onSubmit] (line 232) exists only while
    the form is rendered; the handler is the one of the current render and
    runs after Formik has emptied its error object. *)
Definition submit (values : CreateUser) (script : list Attempt) (st : State) : Run :=
  if seen st then reqCreateUser (render st) values script (resetFieldErrors st)
  else {| final := st; trace := []; outcome := Resolved |}.

(** ** Observations on traces *)

Definition isPost (e : State * Event) : bool :=
  match snd e with PostUsers _ _ => true | _ => false end.

Definition isAlert (e : State * Event) : bool :=
  match snd e with Alert _ => true | _ => false end.

Definition posts (tr : Trace) : list (State * Event) := filter isPost tr.

Definition alerts (tr : Trace) : list string :=
  omap (fun e => match snd e with Alert m => Some m | _ => None end) tr.

(** ** Sample data *)

Definition alice : User :=
  {| id := "31"; name := "Alice"; email := "alice@example.com";
     phone := "+380955388485"; photo := "https://example.com/31.jpg";
     position := "Designer"; position_id := 4;
     registration_timestamp := 1700000000 |}.

Definition aliceValues : CreateUser :=
  {| cu_name := "Alice"; cu_email := "alice@example.com";
     cu_phone := "+380955388485"; cu_photo := ""; cu_position_id := 0 |}.

Definition portrait : File := {| file_name := "alice.jpg"; file_size := 40000 |}.

Definition unauthorized : Caught :=
  {| response := Some {| status := 401;
                         data := Some {| success := false; fails := None |} |} |}.

Definition answers401 (t : string) : Attempt :=
  {| tokenReply := Some t; postReply := inr unauthorized; getReply := inl alice |}.

Definition answersCreated (t : string) : Attempt :=
  {| tokenReply := Some t; postReply := inl "31"; getReply := inl alice |}.

(** The form is open, a position and a photo are chosen, the token fetched
    by [onClickUserCreate] is held. *)
Definition formOpen : State :=
  {| currPage := baseURL +:+ "/users?page=1&count=6";
     nextPage := None;
     users := [];
     seen := true;
     token := Some "t0";
     positions := [{| pos_id := 4; pos_name := "Designer" |}];
     selectedPosition := Some {| value := 4; label := "Designer" |};
     tokenRef := Some "t0";
     fileRef := Some [portrait];
     formErrors := ∅ |}.


(** ** The listing flow *)

(** A request made with a cancel token (lines 89-93, 113-117). *)
Record Request := {
  rq_url : string;
  rq_cancelled : bool;          (* [source.cancel()] was called *)
  rq_settled : bool             (* its promise has settled *)
}.

(** How an axios promise settles. *)
Inductive Settled (A : Type) :=
| Fulfilled (res : A)
| Cancelled                     (* rejected, [axios.isCancel(err)] holds *)
| Failed.                       (* rejected with any other error *)
Arguments Fulfilled {A} res.
Arguments Cancelled {A}.
Arguments Failed {A}.

(** The contract of axios for a request that carries a cancel token: once
    the token is cancelled the promise rejects with a cancellation,
    whatever the service answers; otherwise it settles as the service
    answers ([None]: the request failed). *)
Definition settle {A : Type} (rq : Request) (answer : option A) : Settled A :=
  if rq_cancelled rq then Cancelled
  else match answer with
       | Some res => Fulfilled res
       | None => Failed
       end.

(** Lines 94-105: the [then] and [catch] callbacks of the page fetch. *)
Definition onUsersSettled (s : Settled GetUserResponse) (st : State) : State * Trace :=
  match s with
  | Fulfilled res =>
      (setNextPage (next_url (links res))
         (setUsers (fun currentUsers => currentUsers ++ page_users res) st), [])
  | Cancelled => (st, [])
  | Failed => (st, [(st, Alert CONNECTION_MESSAGE)])
  end.

(** Lines 118-128: the callbacks of the positions fetch. *)
Definition onPositionsSettled (s : Settled (list Position)) (st : State) : State * Trace :=
  match s with
  | Fulfilled res => (setPositions res st, [])
  | Cancelled => (st, [])
  | Failed => (st, [(st, Alert CONNECTION_MESSAGE)])
  end.

(** A run of successful page fetches, in fetch order. *)
Definition fetchPages (pages : list GetUserResponse) (st : State) : State :=
  foldl (fun s res => fst (onUsersSettled (Fulfilled res) s)) st pages.

(** ** A session of the component *)

(** The life of the component instance: not yet mounted, mounted, and
    unmounted for good (a later mount is another instance, with a state of
    its own). *)
Inductive Phase := Fresh | Live | Gone.

Record Session := {
  app : State;
  phase : Phase;
  pageRequests : list Request;        (* of the page-fetch effect, oldest first *)
  positionsRequest : option Request;  (* of the positions effect *)
  history : Trace
}.

Definition mounted (s : Session) : bool :=
  match phase s with Live => true | _ => false end.

Definition initialSession : Session :=
  {| app := initialState; phase := Fresh; pageRequests := [];
     positionsRequest := None; history := [] |}.

Definition newRequest (url : string) : Request :=
  {| rq_url := url; rq_cancelled := false; rq_settled := false |}.

Definition cancel (rq : Request) : Request :=
  {| rq_url := rq_url rq; rq_cancelled := true; rq_settled := rq_settled rq |}.

Definition markSettled (rq : Request) : Request :=
  {| rq_url := rq_url rq; rq_cancelled := rq_cancelled rq; rq_settled := true |}.

(** The cleanup of the page-fetch effect (lines 107-109) cancels the
    request of the effect that is being replaced: the latest one. *)
Definition cancelLatest (rqs : list Request) : list Request :=
  alter cancel (pred (length rqs)) rqs.

Inductive Action :=
| Mount
| Unmount
| PageAnswer (i : nat) (answer : option GetUserResponse)
| PositionsAnswer (answer : option (list Position))
| ClickShowMore
| ClickCreateUser (reply : option string)
| ClickClose
| ChoosePosition (o : option PositionOption)
| ChooseFile (files : list File)
| SubmitForm (values : CreateUser) (script : list Attempt).

Definition withApp (s : Session) (st : State) (tr : Trace) : Session :=
  {| app := st; phase := phase s; pageRequests := pageRequests s;
     positionsRequest := positionsRequest s; history := history s ++ tr |}.

Definition setFiles (files : list File) (st : State) : State :=
  {| currPage := currPage st; nextPage := nextPage st; users := users st;
     seen := seen st; token := token st; positions := positions st;
     selectedPosition := selectedPosition st; tokenRef := tokenRef st;
     fileRef := Some files; formErrors := formErrors st |}.

Definition step (a : Action) (s : Session) : Session :=
  match a with
  | PageAnswer i answer =>
      match pageRequests s !! i with
      | Some rq =>
          if rq_settled rq then s
          else
            let '(st, tr) := onUsersSettled (settle rq answer) (app s) in
            {| app := st; phase := phase s;
               pageRequests := <[i := markSettled rq]> (pageRequests s);
               positionsRequest := positionsRequest s;
               history := history s ++ tr |}
      | None => s
      end
  | PositionsAnswer answer =>
      match positionsRequest s with
      | Some rq =>
          if rq_settled rq then s
          else
            let '(st, tr) := onPositionsSettled (settle rq answer) (app s) in
            {| app := st; phase := phase s;
               pageRequests := pageRequests s;
               positionsRequest := Some (markSettled rq);
               history := history s ++ tr |}
      | None => s
      end
  | Mount =>
      match phase s with
      | Fresh =>
          (* both effects run: lines 88-110 and 112-133 *)
          {| app := app s; phase := Live;
             pageRequests := pageRequests s ++ [newRequest (currPage (app s))];
             positionsRequest := Some (newRequest (baseURL +:+ "/positions"));
             history := history s ++ [(app s, GetUsers (currPage (app s)));
                                      (app s, GetPositions)] |}
      | _ => s
      end
  | _ =>
      if negb (mounted s) then s
      else
        match a with
        | Unmount =>
            {| app := app s; phase := Gone;
               pageRequests := cancelLatest (pageRequests s);
               positionsRequest := cancel <$> positionsRequest s;
               history := history s |}
        | ClickShowMore =>
            (* lines 289-297: the button exists when [nextPage] is truthy;
               the effect depends on [currPage] (line 110) *)
            match truthy (nextPage (app s)) with
            | Some url =>
                if String.eqb url (currPage (app s)) then s
                else
                  let st := setCurrPage url (app s) in
                  {| app := st; phase := Live;
                     pageRequests := cancelLatest (pageRequests s) ++ [newRequest url];
                     positionsRequest := positionsRequest s;
                     history := history s ++ [(st, GetUsers url)] |}
            | None => s
            end
        | ClickCreateUser reply =>
            let r := onClickUserCreate (render (app s)) reply (app s) in
            withApp s (final r) (trace r)
        | ClickClose =>
            if seen (app s)
            then withApp s (togglePopCreateUser (render (app s)) (app s)) []
            else s
        | ChoosePosition o =>
            if seen (app s) then withApp s (setSelectedPosition o (app s)) [] else s
        | ChooseFile files =>
            if seen (app s) then withApp s (setFiles files (app s)) [] else s
        | SubmitForm values script =>
            let r := submit values script (app s) in
            withApp s (final r) (trace r)
        | _ => s
        end
  end.

Definition runSession (actions : list Action) (s : Session) : Session :=
  foldl (fun s a => step a s) s actions.

(** The [i]-th page request has been superseded: the effect has run again
    for another cursor, or the component has been unmounted. *)
Definition superseded (s : Session) (i : nat) : Prop :=
  (S i < length (pageRequests s))%nat
  \/ (mounted s = false /\ (i < length (pageRequests s))%nat).

Definition supersededCancelled (s : Session) : Prop :=
  forall i rq, pageRequests s !! i = Some rq -> superseded s i -> rq_cancelled rq = true.

Definition sumCounts (pages : list GetUserResponse) : Z :=
  foldr (fun res acc => count res + acc) 0 pages.

Definition allUsers (pages : list GetUserResponse) : list User :=
  concat (page_users <$> pages).

(** What one action may do to the list of users. *)
Definition listUpdate (a : Action) (before after : list User) : Prop :=
  match a with
  | PageAnswer _ answer =>
      after = before
      \/ exists res, answer = Some res /\ after = before ++ page_users res
  | SubmitForm _ _ =>
      after = before \/ exists created, after = created :: before
  | _ => after = before
  end.

Definition page (us : list User) (next : option string) : GetUserResponse :=
  {| total_pages := 2; total_users := 7; count := Z.of_nat (length us);
     links := {| next_url := next; prev_url := None |}; page_users := us |}.


(** ** Classifying the answers of the service *)

(** The test of line 212 on a caught error that has a response and a body. *)
Definition isUnauthorized (error : Caught) : bool :=
  match response error with
  | Some resp =>
      match data resp with
      | Some body => (status resp =? 401) && negb (success body)
      | None => false
      end
  | None => false
  end.

Definition tokenGranted (srv : Attempt) : bool :=
  match tokenReply srv with Some _ => true | None => false end.

(** The error the [try] block meets with these answers, once the POST is
    out: that of the POST, else that of the follow-up GET. *)
Definition thrown (srv : Attempt) : option Caught :=
  match postReply srv with
  | inr error => Some error
  | inl _ => match getReply srv with
             | inr error => Some error
             | inl _ => None
             end
  end.

Definition postUnauthorized (srv : Attempt) : bool :=
  match postReply srv with
  | inr error => isUnauthorized error
  | inl _ => false
  end.

(** The pass that gets these answers does not call itself again. *)
Definition settles (srv : Attempt) : bool :=
  match thrown srv with
  | Some error => negb (isUnauthorized error)
  | None => true
  end.

(** How a pass obtains the token it sends (lines 164-176), given that the
    service grants one when asked. *)
Definition acquires (srv : Attempt) (st st1 : State) (pre : Trace) (t : string) : Prop :=
  (truthy (tokenRef st) = Some t /\ st1 = st /\ pre = [])
  \/ (truthy (tokenRef st) = None /\ tokenReply srv = Some t
      /\ st1 = setToken (Some t) st /\ pre = [(st, GetToken)]).

(** A creation request in a trace was sent under the token that was held
    when it was sent. *)
Definition carriesHeldToken (e : State * Event) : Prop :=
  match snd e with
  | PostUsers _ tok => tokenRef (fst e) = Some tok
  | _ => True
  end.

Definition invalidFields : list (string * list string) :=
  [("email", ["The email must be a valid email address.";
              "The email field is required."]);
   ("phone", ["The phone field is required."])].

Definition invalidBody : ErrorBody :=
  {| success := false; fails := Some invalidFields |}.

Definition invalid : Caught :=
  {| response := Some {| status := 422; data := Some invalidBody |} |}.

Definition answersInvalid : Attempt :=
  {| tokenReply := Some "t1"; postReply := inr invalid; getReply := inl alice |}.

Definition answersOffline : Attempt :=
  {| tokenReply := Some "t1"; postReply := inr {| response := None |};
     getReply := inl alice |}.

(** The creation is accepted, the lookup of the record gets no answer. *)
Definition answersLookupLost : Attempt :=
  {| tokenReply := Some "t1"; postReply := inl "31";
     getReply := inr {| response := None |} |}.

(** The creation is accepted, the lookup of the record is answered 404. *)
Definition answersLookupMissing : Attempt :=
  {| tokenReply := Some "t1"; postReply := inl "31";
     getReply := inr {| response :=
                          Some {| status := 404;
                                  data := Some {| success := false; fails := None |} |} |} |}.

Definition answersNoToken : Attempt :=
  {| tokenReply := None; postReply := inl "31"; getReply := inl alice |}.

(** ** Further observations and sample answers *)

(** The "token has expired" alerts of a trace. *)
Definition expiredAlerts (tr : Trace) : list string :=
  filter (fun m => m = TOKEN_EXPIRED_MESSAGE) (alerts tr).

(** Page requests that fail, one after the other. *)
Definition failedAnswers (indices : list nat) : list Action :=
  (fun i => PageAnswer i None) <$> indices.

(** The lookup of the created user is answered "unauthorized". *)
Definition answersLookup401 : Attempt :=
  {| tokenReply := Some "t1"; postReply := inl "31"; getReply := inr unauthorized |}.

Definition serverError : Caught :=
  {| response := Some {| status := 500;
                         data := Some {| success := false; fails := None |} |} |}.

Definition answersServerError : Attempt :=
  {| tokenReply := Some "t1"; postReply := inr serverError; getReply := inl alice |}.

(** The part of the state that belongs to the listing flow and to the
    position control is the same in both states. *)
Definition sameListing (st st' : State) : Prop :=
  currPage st' = currPage st /\ nextPage st' = nextPage st
  /\ positions st' = positions st /\ selectedPosition st' = selectedPosition st.

(** A click on "Show more" would change nothing: the component is not
    mounted, the button is not rendered, or the cursor already is the
    next page. *)
Definition showMoreInert (s : Session) : bool :=
  negb (mounted s)
  || match truthy (nextPage (app s)) with
     | Some url => String.eqb url (currPage (app s))
     | None => true
     end.

(** The alerts the create-user flow can show. *)
Definition creationAlerts : list string :=
  [TOKEN_ERROR_MESSAGE; TOKEN_EXPIRED_MESSAGE; CREATED_MESSAGE].

(** What one action may do to the list of positions. *)
Definition positionsUpdate (a : Action) (before after : list Position) : Prop :=
  match a with
  | PositionsAnswer answer =>
      after = before \/ answer = Some after
  | _ => after = before
  end.

(** The two updates of the list of users, as events: the [then] callback
    of a page fetch (line 95) and the prepend of a created user (line
    195). *)
Inductive ListEvent :=
| PageFetched (res : GetUserResponse)
| UserCreated (user : User).

Definition listEvent (e : ListEvent) (st : State) : State :=
  match e with
  | PageFetched res => fst (onUsersSettled (Fulfilled res) st)
  | UserCreated user => setUsers (fun currentUsers => user :: currentUsers) st
  end.

Definition listEvents (events : list ListEvent) (st : State) : State :=
  foldl (fun s e => listEvent e s) st events.

Definition fetchedPages (events : list ListEvent) : list GetUserResponse :=
  omap (fun e => match e with PageFetched res => Some res | UserCreated _ => None end)
       events.

Definition createdUsers (events : list ListEvent) : list User :=
  omap (fun e => match e with UserCreated user => Some user | PageFetched _ => None end)
       events.

Definition bob : User :=
  {| id := "7"; name := "Bob"; email := "bob@example.com";
     phone := "+380501234567"; photo := "https://example.com/7.jpg";
     position := "Lawyer"; position_id := 1;
     registration_timestamp := 1690000000 |}.

(** The last page of a listing by six: the service reports the page size
    as [count], the page carries the one user that is left. *)
Definition shortLastPage : GetUserResponse :=
  {| total_pages := 2; total_users := 7; count := 6;
     links := {| next_url := None; prev_url := Some "p1" |};
     page_users := [bob] |}.

(** * Properties *)

Example retry_twice_then_created :
  let r := submit aliceValues [answers401 "t1"; answers401 "t2"; answersCreated "t3"] formOpen in
  outcome r = Resolved /\ users (final r) = [alice] /\ seen (final r) = false
  /\ tokenRef (final r) = None /\ length (posts (trace r)) = 3%nat
  /\ alerts (trace r) = [TOKEN_EXPIRED_MESSAGE; TOKEN_EXPIRED_MESSAGE; CREATED_MESSAGE].
Proof. vm_compute. repeat split; reflexivity. Qed.

Example session_two_pages :
  let s := runSession
             [Mount; PageAnswer 0 (Some (page [alice] (Some "p2")));
              ClickShowMore; PageAnswer 1 (Some (page [alice] None))]
             initialSession in
  users (app s) = [alice; alice] /\ nextPage (app s) = None
  /\ currPage (app s) = "p2" /\ alerts (history s) = [].
Proof. vm_compute. repeat split; reflexivity. Qed.

(** ** Basic facts about the setters *)

Lemma setSeen_fields b st :
  users (setSeen b st) = users st /\ tokenRef (setSeen b st) = tokenRef st
  /\ token (setSeen b st) = token st /\ seen (setSeen b st) = b.
Proof.
  unfold setSeen. destruct (Bool.eqb b (seen st)) eqn:E; simpl; [|done].
  apply Bool.eqb_prop in E. done.
Qed.

Lemma togglePopCreateUser_fields cl st :
  users (togglePopCreateUser cl st) = users st
  /\ tokenRef (togglePopCreateUser cl st) = tokenRef st
  /\ token (togglePopCreateUser cl st) = token st
  /\ seen (togglePopCreateUser cl st) = negb (cl_seen cl).
Proof. apply setSeen_fields. Qed.

Lemma setFieldErrors_fields entries st :
  users (setFieldErrors entries st) = users st
  /\ seen (setFieldErrors entries st) = seen st
  /\ tokenRef (setFieldErrors entries st) = tokenRef st
  /\ token (setFieldErrors entries st) = token st
  /\ fileRef (setFieldErrors entries st) = fileRef st.
Proof.
  unfold setFieldErrors. revert st.
  induction entries as [|kv entries IH]; intros st; simpl; [done|].
  destruct (IH (setFieldError kv.1 (join ". " kv.2) st)) as (-> & -> & -> & -> & ->).
  done.
Qed.

Lemma setToken_idem v st : setToken v (setToken v st) = setToken v st.
Proof. reflexivity. Qed.

Lemma truthy_Some t s : truthy t = Some s -> t = Some s /\ s <> "".
Proof.
  destruct t as [x|]; simpl; [|done].
  destruct (String.eqb x "") eqn:E; [done|].
  intros [= ->]. split; [done|]. intros ->. done.
Qed.

(** ** One pass of [reqCreateUser] *)

Lemma reqCreateUser_nil cl values st :
  reqCreateUser cl values [] st = {| final := st; trace := []; outcome := Pending |}.
Proof. reflexivity. Qed.

Lemma tryCreate_threw cl values srv t st st2 tr2 error :
  tryCreate cl values srv t st = (st2, tr2, Some error) -> st2 = st.
Proof. unfold tryCreate. repeat case_match; naive_solver. Qed.

Lemma tryCreate_done cl values srv t st st2 tr2 :
  tryCreate cl values srv t st = (st2, tr2, None) ->
  exists files userId user,
    fileRef st = Some files /\ postReply srv = inl userId /\ getReply srv = inl user
    /\ st2 = togglePopCreateUser cl (setUsers (fun currentUsers => user :: currentUsers) st)
    /\ tr2 = [(st, PostUsers (payload cl values files) t); (st, GetUser userId);
              (st2, Alert CREATED_MESSAGE)].
Proof. unfold tryCreate. repeat case_match; naive_solver. Qed.

Lemma tryCreate_tokens cl values srv t st st2 tr2 e :
  tryCreate cl values srv t st = (st2, tr2, e) ->
  tokenRef st2 = tokenRef st /\ token st2 = token st.
Proof.
  destruct e as [error|]; intros H.
  - apply tryCreate_threw in H as ->. done.
  - apply tryCreate_done in H as (files & userId & user & _ & _ & _ & -> & _).
    destruct (togglePopCreateUser_fields cl
                (setUsers (fun currentUsers => user :: currentUsers) st))
      as (_ & -> & -> & _). done.
Qed.

(** Case analysis on the [try] block of the pass under consideration. *)
Ltac destruct_tryCreate :=
  match goal with
  | |- context [tryCreate ?c ?v ?s ?t ?x] =>
      destruct (tryCreate c v s t x) as [[st2 tr2] [error|]] eqn:Htry
  end.

(** The held token after a run that has ended: null, unless the run ended
    at line 174 of its first pass, which leaves the state of the token as
    it found it. *)
Lemma reqCreateUser_token script : forall cl values st,
  let r := reqCreateUser cl values script st in
  outcome r <> Pending ->
  (tokenRef (final r) = None /\ token (final r) = None)
  \/ (final r = togglePopCreateUser cl st /\ posts (trace r) = []
      /\ truthy (tokenRef st) = None).
Proof.
  induction script as [|srv rest IH]; intros cl values st; [simpl; done|].
  cbn zeta. cbn [reqCreateUser].
  destruct (truthy (tokenRef st)) as [userToken|] eqn:Ht.
  2: destruct (tokenReply srv) as [userToken|]; [|intros _; right; done].
  all: destruct_tryCreate.
  all: repeat (case_match; try (intros _; left; done)).
  all: intros Hp; cbn [final outcome trace] in *.
  all: lazymatch goal with
       | |- context [reqCreateUser ?c ?v _ ?x] =>
           destruct (IH c v x Hp) as [?|(-> & _ & _)]; [by left|];
           left; destruct (togglePopCreateUser_fields c x) as (_ & -> & -> & _); done
       | |- _ => left; split; reflexivity
       end.
Qed.

(** ** The token after a submission *)

(** [token] and [tokenRef.current] are written together (by [setToken])
    in every step of a session. *)
Lemma reqCreateUser_sync script : forall cl values st,
  token st = tokenRef st ->
  token (final (reqCreateUser cl values script st))
  = tokenRef (final (reqCreateUser cl values script st)).
Proof.
  induction script as [|srv rest IH]; intros cl values st Hs; [done|].
  cbn [reqCreateUser].
  destruct (truthy (tokenRef st)) as [userToken|] eqn:Ht.
  2: destruct (tokenReply srv) as [userToken|];
       [|cbn [final]; by destruct (togglePopCreateUser_fields cl st) as (_ & -> & -> & _)].
  all: destruct_tryCreate.
  all: repeat case_match; cbn [final]; try reflexivity.
  all: by apply IH.
Qed.

(** [token] and [tokenRef.current] agree in every state a session
    reaches. *)
Lemma step_sync a s :
  token (app s) = tokenRef (app s) -> token (app (step a s)) = tokenRef (app (step a s)).
Proof.
  intros Hs.
  destruct a as [| |i answer|answer| |reply| |o|files|values script]; cbn [step].
  - by destruct (phase s).
  - by destruct (mounted s).
  - destruct (pageRequests s !! i) as [rq|]; [|done].
    destruct (rq_settled rq); [done|].
    unfold settle. destruct (rq_cancelled rq); [done|]. by destruct answer.
  - destruct (positionsRequest s) as [rq|]; [|done].
    destruct (rq_settled rq); [done|].
    unfold settle. destruct (rq_cancelled rq); [done|]. by destruct answer.
  - destruct (mounted s); [|done]. cbn [negb].
    destruct (truthy (nextPage (app s))) as [url|]; [|done].
    by destruct (String.eqb url (currPage (app s))).
  - destruct (mounted s); [|done]. cbn [negb withApp app].
    destruct reply as [t|]; [|done]. cbn [onClickUserCreate final].
    by destruct (togglePopCreateUser_fields (render (app s)) (setToken (Some t) (app s)))
      as (_ & -> & -> & _).
  - destruct (mounted s); [|done]. cbn [negb].
    destruct (seen (app s)); [|done]. cbn [withApp app].
    by destruct (togglePopCreateUser_fields (render (app s)) (app s)) as (_ & -> & -> & _).
  - destruct (mounted s); [|done]. cbn [negb]. by destruct (seen (app s)).
  - destruct (mounted s); [|done]. cbn [negb]. by destruct (seen (app s)).
  - destruct (mounted s); [|done]. cbn [negb withApp app]. unfold submit.
    destruct (seen (app s)); [|done]. by apply reqCreateUser_sync.
Qed.

(** X15: [setToken] (lines 135-138) is the only writer of [token] and of
    [tokenRef.current] and writes both: in every state a session reaches
    from the initial one the two agree. *)
Lemma runSession_sync actions :
  token (app (runSession actions initialSession))
  = tokenRef (app (runSession actions initialSession)).
Proof.
  assert (forall s, token (app s) = tokenRef (app s) ->
                    token (app (runSession actions s))
                    = tokenRef (app (runSession actions s))) as H.
  { induction actions as [|a actions IH]; intros s Hs; [done|].
    apply (IH (step a s)). by apply step_sync. }
  by apply H.
Qed.

(** A pass that holds no token starts by asking the service for one. *)
Lemma reqCreateUser_asks_first cl values srv rest st :
  truthy (tokenRef st) = None ->
  exists tail, trace (reqCreateUser cl values (srv :: rest) st) = (st, GetToken) :: tail.
Proof.
  intros Ht. cbn [reqCreateUser]. rewrite Ht.
  destruct (tokenReply srv) as [t|]; [|by eexists].
  destruct (tryCreate cl values srv t (setToken (Some t) st)) as [[st2 tr2] [error|]].
  all: repeat case_match; cbn [trace app]; by eexists.
Qed.

(** C2: when a submission has ended - in success, in a validation
    failure or in any other failure - no token is held: [tokenRef.current],
    which the flow only ever tests for truth (line 165), is empty, so the
    next call of [reqCreateUser] starts by fetching a token, whatever it is
    called with.  The value is null whenever a creation request was sent
    and whenever the value at the start was not the empty string; and
    [token] keeps agreeing with [tokenRef.current]. *)
Theorem token_discarded_after_submission cl values script st :
  outcome (reqCreateUser cl values script st) <> Pending ->
  truthy (tokenRef (final (reqCreateUser cl values script st))) = None
  /\ (forall cl' values' srv rest,
        exists tail,
          trace (reqCreateUser cl' values' (srv :: rest)
                   (final (reqCreateUser cl values script st)))
          = (final (reqCreateUser cl values script st), GetToken) :: tail)
  /\ (tokenRef st <> Some "" ->
      tokenRef (final (reqCreateUser cl values script st)) = None)
  /\ (posts (trace (reqCreateUser cl values script st)) <> [] ->
      tokenRef (final (reqCreateUser cl values script st)) = None)
  /\ (token st = tokenRef st ->
      token (final (reqCreateUser cl values script st))
      = tokenRef (final (reqCreateUser cl values script st))).
Proof.
  intros Hp.
  assert (truthy (tokenRef (final (reqCreateUser cl values script st))) = None) as Hempty.
  { destruct (reqCreateUser_token script cl values st Hp) as [[-> _]|(-> & _ & Ht)]; [done|].
    by destruct (togglePopCreateUser_fields cl st) as (_ & -> & _). }
  split_and!.
  - exact Hempty.
  - intros cl' values' srv rest. by apply reqCreateUser_asks_first.
  - intros Hne.
    destruct (reqCreateUser_token script cl values st Hp) as [[-> _]|(-> & _ & Ht)]; [done|].
    destruct (togglePopCreateUser_fields cl st) as (_ & -> & _).
    destruct (tokenRef st) as [s|]; [|done]. simpl in Ht.
    destruct (String.eqb s "") eqn:E; [|done].
    apply String.eqb_eq in E. congruence.
  - intros Hposts.
    destruct (reqCreateUser_token script cl values st Hp) as [[-> _]|(_ & Hn & _)]; done.
  - intros Hs. by apply reqCreateUser_sync.
Qed.

Lemma token_discarded_after_submission_witness :
  truthy (tokenRef (final (reqCreateUser (render formOpen) aliceValues
                             [answers401 "t1"; answersCreated "t2"] formOpen))) = None
  /\ tokenRef (final (reqCreateUser (render formOpen) aliceValues
                        [answers401 "t1"; answersCreated "t2"] formOpen)) = None.
Proof.
  assert (outcome (reqCreateUser (render formOpen) aliceValues
                     [answers401 "t1"; answersCreated "t2"] formOpen) <> Pending) as Hp
    by (vm_compute; discriminate).
  split.
  - exact (proj1 (token_discarded_after_submission (render formOpen) aliceValues
                    [answers401 "t1"; answersCreated "t2"] formOpen Hp)).
  - refine (proj1 (proj2 (proj2
      (token_discarded_after_submission (render formOpen) aliceValues
         [answers401 "t1"; answersCreated "t2"] formOpen Hp))) _).
    vm_compute. discriminate.
Defined.

(** The one path that does not write the token is the early return of
    line 174, which is taken with an empty [tokenRef.current]: when that
    was the empty string (a token the service would have had to issue) it
    still is, and it is as good as null to line 165. *)
Example empty_string_token_is_no_token :
  let st := final (onClickUserCreate (render initialState) (Some "") initialState) in
  let r := submit aliceValues [answersNoToken] st in
  outcome r = Resolved
  /\ tokenRef (final r) = Some "" /\ truthy (tokenRef (final r)) = None.
Proof. vm_compute. repeat split; reflexivity. Qed.

(** ** The pass that is answered "unauthorized" *)

Lemma isUnauthorized_inv error :
  isUnauthorized error = true ->
  exists resp body,
    response error = Some resp /\ data resp = Some body
    /\ status resp = 401 /\ success body = false.
Proof.
  unfold isUnauthorized. destruct (response error) as [resp|]; [|done].
  destruct (data resp) as [body|] eqn:Hd; [|done].
  intros [H1 H2]%andb_prop. exists resp, body. split_and!; try done.
  - by apply Z.eqb_eq.
  - by destruct (success body).
Qed.

Lemma acquires_held srv st st1 pre t :
  acquires srv st st1 pre t -> tokenRef st1 = Some t /\ fileRef st1 = fileRef st
  /\ users st1 = users st /\ seen st1 = seen st /\ formErrors st1 = formErrors st.
Proof.
  intros [(Ht & -> & _)|(_ & _ & -> & _)]; [|done].
  by apply truthy_Some in Ht as [-> _].
Qed.

Lemma reqCreateUser_unauthorized cl values srv rest st files :
  fileRef st = Some files ->
  tokenGranted srv = true ->
  postUnauthorized srv = true ->
  exists t st1 pre,
    acquires srv st st1 pre t
    /\ reqCreateUser cl values (srv :: rest) st
       = {| final := final (reqCreateUser cl values rest (setToken None st1));
            trace := pre ++ [(st1, PostUsers (payload cl values files) t);
                             (st1, Alert TOKEN_EXPIRED_MESSAGE)]
                         ++ trace (reqCreateUser cl values rest (setToken None st1));
            outcome := outcome (reqCreateUser cl values rest (setToken None st1)) |}.
Proof.
  intros Hf Hg Hu. unfold tokenGranted in Hg. unfold postUnauthorized in Hu.
  destruct (tokenReply srv) as [t'|] eqn:Hr; [|done].
  destruct (postReply srv) as [|error] eqn:Hpost; [done|].
  apply isUnauthorized_inv in Hu as (resp & body & Hresp & Hdata & Hst & Hsucc).
  destruct (truthy (tokenRef st)) as [t|] eqn:Ht.
  - exists t, st, []. split; [by left|].
    cbn [reqCreateUser]. rewrite Ht. unfold tryCreate. rewrite Hf, Hpost, Hresp, Hdata.
    rewrite Hst, Hsucc. simpl. by destruct (fails body).
  - exists t', (setToken (Some t') st), [(st, GetToken)]. split; [by right|].
    cbn [reqCreateUser]. rewrite Ht, Hr. unfold tryCreate.
    replace (fileRef (setToken (Some t') st)) with (Some files) by done.
    rewrite Hpost, Hresp, Hdata, Hst, Hsucc. simpl. by destruct (fails body).
Qed.

(** The pass that is not answered "unauthorized" ends the run. *)
Lemma reqCreateUser_settles cl values srv rest st files :
  fileRef st = Some files ->
  tokenGranted srv = true ->
  settles srv = true ->
  exists t st1 pre tail,
    acquires srv st st1 pre t
    /\ outcome (reqCreateUser cl values (srv :: rest) st) <> Pending
    /\ trace (reqCreateUser cl values (srv :: rest) st)
       = pre ++ (st1, PostUsers (payload cl values files) t) :: tail
    /\ posts tail = [].
Proof.
  intros Hf Hg Hs. unfold tokenGranted in Hg. unfold settles, thrown in Hs.
  destruct (tokenReply srv) as [t'|] eqn:Hr; [|done].
  assert (forall error, negb (isUnauthorized error) = true ->
            match response error with
            | Some resp => match data resp with
                           | Some body => (status resp =? 401) && negb (success body) = false
                           | None => True
                           end
            | None => True
            end) as Hno.
  { intros error H%negb_true_iff. unfold isUnauthorized in H. by repeat case_match. }
  destruct (truthy (tokenRef st)) as [t|] eqn:Ht.
  - exists t, st, []. cbn [reqCreateUser]. rewrite Ht. unfold tryCreate. rewrite Hf.
    destruct (postReply srv) as [userId|error]; [destruct (getReply srv) as [user|error]|].
    2,3: specialize (Hno error Hs).
    all: repeat case_match; try done; simplify_eq.
    all: eexists; split_and!; [by left|done|reflexivity|done].
  - exists t', (setToken (Some t') st), [(st, GetToken)].
    cbn [reqCreateUser]. rewrite Ht, Hr. unfold tryCreate.
    replace (fileRef (setToken (Some t') st)) with (Some files) by done.
    destruct (postReply srv) as [userId|error]; [destruct (getReply srv) as [user|error]|].
    2,3: specialize (Hno error Hs).
    all: repeat case_match; try done; simplify_eq.
    all: eexists; split_and!; [by right|done|reflexivity|done].
Qed.

Lemma posts_app (a b : Trace) : posts (a ++ b) = posts a ++ posts b.
Proof. apply filter_app. Qed.

Lemma acquires_posts srv st st1 pre t : acquires srv st st1 pre t -> posts pre = [].
Proof. by intros [(_ & _ & ->)|(_ & _ & _ & ->)]. Qed.

(** ** C1: how often the flow re-submits *)

(** C1, as the code has it: every "unauthorized" answer is followed by
    another submission under a freshly fetched token, with no bound on
    their number.  When the service answers "unauthorized" to the first
    [length pre] submissions and otherwise to the next one, the run ends
    and has sent [length pre + 1] creation requests: the operator's own
    and one automatic re-submission per "unauthorized" answer. *)
Theorem resubmits_after_every_unauthorized cl values pre lst : forall st files,
  fileRef st = Some files ->
  Forall (fun srv => tokenGranted srv = true /\ postUnauthorized srv = true) pre ->
  tokenGranted lst = true ->
  settles lst = true ->
  outcome (reqCreateUser cl values (pre ++ [lst]) st) <> Pending
  /\ length (posts (trace (reqCreateUser cl values (pre ++ [lst]) st)))
     = S (length pre).
Proof.
  induction pre as [|srv pre IH]; intros st files Hf Hpre Hg Hs.
  - change ([] ++ [lst]) with [lst].
    destruct (reqCreateUser_settles cl values lst [] st files Hf Hg Hs)
      as (t & st1 & tr & tail & Ha & Ho & -> & Htail).
    split; [done|].
    rewrite posts_app, (acquires_posts _ _ _ _ _ Ha).
    change (posts ((st1, PostUsers (payload cl values files) t) :: tail))
      with ((st1, PostUsers (payload cl values files) t) :: posts tail).
    by rewrite Htail.
  - apply Forall_cons in Hpre as [[Hg1 Hu1] Hpre].
    destruct (reqCreateUser_unauthorized cl values srv (pre ++ [lst]) st files Hf Hg1 Hu1)
      as (t & st1 & tr & Ha & Heq).
    change ((srv :: pre) ++ [lst]) with (srv :: (pre ++ [lst])). rewrite Heq.
    cbn [outcome trace].
    destruct (acquires_held _ _ _ _ _ Ha) as (_ & Hf1 & _).
    destruct (IH (setToken None st1) files) as [Ho Hn]; [by rewrite <- Hf| done..|].
    split; [done|].
    rewrite !posts_app, (acquires_posts _ _ _ _ _ Ha).
    change (posts [(st1, PostUsers (payload cl values files) t);
                   (st1, Alert TOKEN_EXPIRED_MESSAGE)])
      with [(st1, PostUsers (payload cl values files) t)].
    simpl. by rewrite Hn.
Qed.

Lemma resubmits_after_every_unauthorized_witness :
  length (posts (trace (reqCreateUser (render formOpen) aliceValues
            ([answers401 "t1"; answers401 "t2"; answers401 "t3"] ++ [answersCreated "t4"])
            formOpen))) = 4%nat.
Proof.
  refine (proj2 (resubmits_after_every_unauthorized (render formOpen) aliceValues
            [answers401 "t1"; answers401 "t2"; answers401 "t3"] (answersCreated "t4")
            formOpen [portrait] _ _ _ _)).
  - reflexivity.
  - repeat constructor.
  - reflexivity.
  - reflexivity.
Defined.

(** C1, as the claim states it, fails: a second consecutive "unauthorized"
    answer is retried again.  Two such answers make the flow send three
    creation requests for one submission of the operator. *)
Lemma second_unauthorized_retried_counterexample :
  let r := submit aliceValues
             [answers401 "t1"; answers401 "t2"; answersCreated "t3"] formOpen in
  outcome r = Resolved
  /\ length (posts (trace r)) = 3%nat
  /\ alerts (trace r) = [TOKEN_EXPIRED_MESSAGE; TOKEN_EXPIRED_MESSAGE; CREATED_MESSAGE]
  /\ ~ (length (posts (trace r)) <= 2)%nat.
Proof.
  assert (length (posts (trace (submit aliceValues
            [answers401 "t1"; answers401 "t2"; answersCreated "t3"] formOpen))) = 3%nat)
    as Hn by (vm_compute; reflexivity).
  cbn zeta. rewrite Hn. split_and!; [vm_compute; reflexivity|done|vm_compute; reflexivity|lia].
Qed.

(** ** C3: the accepted submission *)

Lemma reqCreateUser_created cl values srv rest st files userId user :
  fileRef st = Some files ->
  tokenGranted srv = true ->
  postReply srv = inl userId ->
  getReply srv = inl user ->
  exists t st1 pre,
    acquires srv st st1 pre t
    /\ reqCreateUser cl values (srv :: rest) st
       = let st2 := togglePopCreateUser cl
                      (setUsers (fun currentUsers => user :: currentUsers) st1) in
         {| final := setToken None st2;
            trace := pre ++ [(st1, PostUsers (payload cl values files) t);
                             (st1, GetUser userId); (st2, Alert CREATED_MESSAGE)];
            outcome := Resolved |}.
Proof.
  intros Hf Hg Hpost Hget. unfold tokenGranted in Hg.
  destruct (tokenReply srv) as [t'|] eqn:Hr; [|done].
  destruct (truthy (tokenRef st)) as [t|] eqn:Ht.
  - exists t, st, []. split; [by left|].
    cbn [reqCreateUser]. rewrite Ht. unfold tryCreate. by rewrite Hf, Hpost, Hget.
  - exists t', (setToken (Some t') st), [(st, GetToken)]. split; [by right|].
    cbn [reqCreateUser]. rewrite Ht, Hr. unfold tryCreate.
    replace (fileRef (setToken (Some t') st)) with (Some files) by done.
    by rewrite Hpost, Hget.
Qed.

Lemma reqCreateUser_accepted_trace cl values srv rest st files userId :
  fileRef st = Some files ->
  tokenGranted srv = true ->
  postReply srv = inl userId ->
  exists t st1 pre tail,
    acquires srv st st1 pre t
    /\ trace (reqCreateUser cl values (srv :: rest) st)
       = pre ++ (st1, PostUsers (payload cl values files) t)
                :: (st1, GetUser userId) :: tail.
Proof.
  intros Hf Hg Hpost. unfold tokenGranted in Hg.
  destruct (tokenReply srv) as [t'|] eqn:Hr; [|done].
  destruct (truthy (tokenRef st)) as [t|] eqn:Ht.
  - exists t, st, []. cbn [reqCreateUser]. rewrite Ht. unfold tryCreate.
    rewrite Hf, Hpost.
    repeat case_match; simplify_eq; cbn [trace app]; eexists; (split; [by left|done]).
  - exists t', (setToken (Some t') st), [(st, GetToken)].
    cbn [reqCreateUser]. rewrite Ht, Hr. unfold tryCreate.
    replace (fileRef (setToken (Some t') st)) with (Some files) by done.
    rewrite Hpost.
    repeat case_match; simplify_eq; cbn [trace app]; eexists; (split; [by right|done]).
Qed.

Lemma reqCreateUser_lookup_failed cl values srv rest st files userId error :
  fileRef st = Some files ->
  tokenGranted srv = true ->
  postReply srv = inl userId ->
  getReply srv = inr error ->
  isUnauthorized error = false ->
  users (final (reqCreateUser cl values (srv :: rest) st)) = users st
  /\ seen (final (reqCreateUser cl values (srv :: rest) st)) = seen st.
Proof.
  intros Hf Hg Hpost Hget Hu. unfold tokenGranted in Hg. unfold isUnauthorized in Hu.
  destruct (tokenReply srv) as [t'|] eqn:Hr; [|done].
  cbn [reqCreateUser].
  destruct (truthy (tokenRef st)) as [t|]; [|rewrite Hr]; unfold tryCreate.
  2: replace (fileRef (setToken (Some t') st)) with (Some files) by done.
  1: rewrite Hf.
  all: rewrite Hpost, Hget.
  all: destruct (response error) as [resp|];
         [destruct (data resp) as [body|]; [cbv beta iota in Hu |- *; rewrite Hu|]|].
  all: repeat case_match; cbn [final setToken users seen]; try (split; reflexivity).
  all: match goal with
       | |- context [setFieldErrors ?l ?x] =>
           by destruct (setFieldErrors_fields l x) as (-> & -> & _)
       end.
Qed.

(** C3, as the code has it: when the service accepts the submission
    (possibly after "unauthorized" answers to earlier passes) and returns
    [userId], the flow requests [GET /users/userId] right after the
    accepted POST.  When that lookup succeeds, the list becomes the fetched
    record followed by the previous list, the form (open in the render the
    submission came from) is closed and the promise resolves.  When the
    lookup fails, other than with an "unauthorized" answer, the list and
    the form are left as they were. *)
Theorem accepted_submission_prepends cl values pre srv rest :
  forall st files userId,
  cl_seen cl = true ->
  fileRef st = Some files ->
  Forall (fun srv => tokenGranted srv = true /\ postUnauthorized srv = true) pre ->
  tokenGranted srv = true ->
  postReply srv = inl userId ->
  (exists front s t tail,
     trace (reqCreateUser cl values (pre ++ srv :: rest) st)
     = front ++ (s, PostUsers (payload cl values files) t)
                :: (s, GetUser userId) :: tail)
  /\ (forall user,
        getReply srv = inl user ->
        outcome (reqCreateUser cl values (pre ++ srv :: rest) st) = Resolved
        /\ (exists front s t s',
              trace (reqCreateUser cl values (pre ++ srv :: rest) st)
              = front ++ [(s, PostUsers (payload cl values files) t);
                          (s, GetUser userId); (s', Alert CREATED_MESSAGE)])
        /\ users (final (reqCreateUser cl values (pre ++ srv :: rest) st))
           = user :: users st
        /\ seen (final (reqCreateUser cl values (pre ++ srv :: rest) st)) = false)
  /\ (forall error,
        getReply srv = inr error ->
        isUnauthorized error = false ->
        users (final (reqCreateUser cl values (pre ++ srv :: rest) st)) = users st
        /\ seen (final (reqCreateUser cl values (pre ++ srv :: rest) st)) = seen st).
Proof.
  induction pre as [|srv0 pre IH]; intros st files userId Hcl Hf Hpre Hg Hpost.
  - change ([] ++ srv :: rest) with (srv :: rest). split_and!.
    + destruct (reqCreateUser_accepted_trace cl values srv rest st files userId Hf Hg Hpost)
        as (t & st1 & tr & tail & _ & ->).
      by exists tr, st1, t, tail.
    + intros user Hget.
      destruct (reqCreateUser_created cl values srv rest st files userId user
                  Hf Hg Hpost Hget) as (t & st1 & tr & Ha & ->).
      destruct (acquires_held _ _ _ _ _ Ha) as (_ & _ & Hu & _).
      cbn [final trace outcome].
      destruct (togglePopCreateUser_fields cl
                  (setUsers (fun currentUsers => user :: currentUsers) st1))
        as (Hu2 & _ & _ & Hs2).
      split_and!; [done|by eauto| |].
      * cbn [setToken users]. rewrite Hu2. simpl. by rewrite Hu.
      * cbn [setToken seen]. by rewrite Hs2, Hcl.
    + intros error Hget Hu. by eapply reqCreateUser_lookup_failed.
  - apply Forall_cons in Hpre as [[Hg1 Hu1] Hpre].
    destruct (reqCreateUser_unauthorized cl values srv0 (pre ++ srv :: rest) st files
                Hf Hg1 Hu1) as (t & st1 & tr & Ha & Heq).
    change ((srv0 :: pre) ++ srv :: rest) with (srv0 :: (pre ++ srv :: rest)).
    rewrite Heq. cbn [final trace outcome].
    destruct (acquires_held _ _ _ _ _ Ha) as (_ & Hf1 & Hu & Hs & _).
    destruct (IH (setToken None st1) files userId) as (Htr & Hok & Hfail);
      [done|by rewrite <- Hf|done..|].
    split_and!.
    + destruct Htr as (front & s & t2 & tail & ->).
      exists (tr ++ [(st1, PostUsers (payload cl values files) t);
                     (st1, Alert TOKEN_EXPIRED_MESSAGE)] ++ front), s, t2, tail.
      by rewrite <- !app_assoc.
    + intros user Hget.
      destruct (Hok user Hget) as (Ho & (front & s & t2 & s' & Htr') & Hus & Hseen).
      split_and!; [done| |by rewrite Hus, <- Hu|done].
      rewrite Htr'.
      exists (tr ++ [(st1, PostUsers (payload cl values files) t);
                     (st1, Alert TOKEN_EXPIRED_MESSAGE)] ++ front), s, t2, s'.
      by rewrite <- !app_assoc.
    + intros error Hget Hne.
      destruct (Hfail error Hget Hne) as [Hus Hseen].
      split; [by rewrite Hus, <- Hu|by rewrite Hseen, <- Hs].
Qed.

Lemma accepted_submission_prepends_witness :
  users (final (reqCreateUser (render formOpen) aliceValues
                  ([answers401 "t1"] ++ answersCreated "t2" :: []) formOpen))
  = alice :: users formOpen.
Proof.
  refine (proj1 (proj2 (proj2 (proj1 (proj2
    (accepted_submission_prepends (render formOpen) aliceValues
       [answers401 "t1"] (answersCreated "t2") [] formOpen [portrait] "31"
       _ _ _ _ _)) alice _)))); try reflexivity.
  repeat constructor.
Defined.

(** C3, as the claim states it, fails: the service accepts the
    submission and returns the identifier, but the lookup of the record
    fails - without a response, or with a 404.  The list is as before, not
    one entry longer, and the form is still open; in the second case the
    promise even resolves. *)
Lemma accepted_without_record_counterexample :
  let lost := submit aliceValues [answersLookupLost] formOpen in
  let missing := submit aliceValues [answersLookupMissing] formOpen in
  postReply answersLookupLost = inl "31"
  /\ postReply answersLookupMissing = inl "31"
  /\ users (final lost) = users formOpen /\ seen (final lost) = true
  /\ outcome lost = Rejected TypeError
  /\ users (final missing) = users formOpen /\ seen (final missing) = true
  /\ outcome missing = Resolved
  /\ (forall created, users (final lost) <> created :: users formOpen)
  /\ (forall created, users (final missing) <> created :: users formOpen).
Proof. vm_compute. repeat split; try reflexivity; discriminate. Qed.

(** ** C4 and C8: the token a creation request carries *)

(** A pass that holds no token asks for one and sends it. *)
Lemma reqCreateUser_fetches_token cl values srv rest st files t :
  truthy (tokenRef st) = None ->
  tokenReply srv = Some t ->
  fileRef st = Some files ->
  exists tail,
    trace (reqCreateUser cl values (srv :: rest) st)
    = (st, GetToken)
      :: (setToken (Some t) st, PostUsers (payload cl values files) t) :: tail.
Proof.
  intros Ht Hr Hf. cbn [reqCreateUser]. rewrite Ht, Hr. unfold tryCreate.
  replace (fileRef (setToken (Some t) st)) with (Some files) by done.
  repeat case_match; simplify_eq; cbn [trace app]; eexists; reflexivity.
Qed.

(** A pass that holds a token sends it without asking for another. *)
Lemma reqCreateUser_sends_held cl values srv rest st files t :
  truthy (tokenRef st) = Some t ->
  fileRef st = Some files ->
  exists tail,
    trace (reqCreateUser cl values (srv :: rest) st)
    = (st, PostUsers (payload cl values files) t) :: tail.
Proof.
  intros Ht Hf. cbn [reqCreateUser]. rewrite Ht. unfold tryCreate. rewrite Hf.
  repeat case_match; simplify_eq; cbn [trace app]; eexists; reflexivity.
Qed.

(** C4, as the code has it: on an "unauthorized" answer the flow tells the
    operator, by an alert, that the token has expired; it then sets the
    held token to null, asks the service for a new one and, when that is
    granted, sends the creation request again under the new token with the
    body of the first request: the same field values, position and
    photo. Nothing but the token changes in between. *)
Theorem unauthorized_then_resubmits cl values srv1 srv2 rest st files t2 :
  fileRef st = Some files ->
  tokenGranted srv1 = true ->
  postUnauthorized srv1 = true ->
  tokenReply srv2 = Some t2 ->
  exists front st1 t1 s2 tail,
    trace (reqCreateUser cl values (srv1 :: srv2 :: rest) st)
    = front ++ [(st1, PostUsers (payload cl values files) t1);
                (st1, Alert TOKEN_EXPIRED_MESSAGE);
                (s2, GetToken);
                (setToken (Some t2) s2, PostUsers (payload cl values files) t2)]
            ++ tail
    /\ posts front = [] /\ alerts front = []
    /\ tokenRef st1 = Some t1
    /\ s2 = setToken None st1
    /\ tokenRef s2 = None /\ token s2 = None.
Proof.
  intros Hf Hg Hu Hr.
  destruct (reqCreateUser_unauthorized cl values srv1 (srv2 :: rest) st files Hf Hg Hu)
    as (t1 & st1 & front & Ha & ->).
  destruct (acquires_held _ _ _ _ _ Ha) as (Hheld & Hf1 & _).
  destruct (reqCreateUser_fetches_token cl values srv2 rest (setToken None st1) files t2)
    as [tail Htail]; [done|done|by rewrite <- Hf|].
  exists front, st1, t1, (setToken None st1), tail.
  cbn [trace]. rewrite Htail. split_and!; try done.
  - by eapply acquires_posts.
  - by destruct Ha as [(_ & _ & ->)|(_ & _ & _ & ->)].
Qed.

Lemma unauthorized_then_resubmits_witness :
  exists front st1 t1 s2 tail,
    trace (reqCreateUser (render formOpen) aliceValues
             [answers401 "t1"; answersCreated "t2"] formOpen)
    = front ++ [(st1, PostUsers (payload (render formOpen) aliceValues [portrait]) t1);
                (st1, Alert TOKEN_EXPIRED_MESSAGE);
                (s2, GetToken);
                (setToken (Some "t2") s2,
                 PostUsers (payload (render formOpen) aliceValues [portrait]) "t2")]
            ++ tail
    /\ posts front = [] /\ alerts front = []
    /\ tokenRef st1 = Some t1
    /\ s2 = setToken None st1
    /\ tokenRef s2 = None /\ token s2 = None.
Proof.
  apply (unauthorized_then_resubmits (render formOpen) aliceValues
           (answers401 "t1") (answersCreated "t2") [] formOpen [portrait] "t2");
    reflexivity.
Defined.

(** C4, as the claim states it, fails: the re-acquisition is not silent.
    Between the rejected request and the request for a new token the
    operator gets the alert of line 213. *)
Lemma retry_not_silent_counterexample :
  let r := submit aliceValues [answers401 "t1"; answersCreated "t2"] formOpen in
  let body := payload (render formOpen) aliceValues [portrait] in
  map snd (trace r)
  = [PostUsers body "t0"; Alert TOKEN_EXPIRED_MESSAGE; GetToken;
     PostUsers body "t2"; GetUser "31"; Alert CREATED_MESSAGE]
  /\ alerts (trace r) <> [CREATED_MESSAGE].
Proof. vm_compute. split; [reflexivity|discriminate]. Qed.

Lemma tryCreate_carries cl values srv t st st2 tr2 e :
  tokenRef st = Some t ->
  tryCreate cl values srv t st = (st2, tr2, e) ->
  Forall carriesHeldToken tr2.
Proof.
  intros Ht. unfold tryCreate.
  repeat case_match; intros ?; simplify_eq; repeat constructor; done.
Qed.

Lemma reqCreateUser_carries script : forall cl values st,
  Forall carriesHeldToken (trace (reqCreateUser cl values script st)).
Proof.
  induction script as [|srv rest IH]; intros cl values st; [constructor|].
  cbn [reqCreateUser].
  destruct (truthy (tokenRef st)) as [t|] eqn:Ht.
  2: destruct (tokenReply srv) as [t|]; [|repeat constructor; done].
  all: match goal with
       | |- context [tryCreate ?c ?v ?s ?t ?x] =>
           destruct (tryCreate c v s t x) as [[st2 tr2] e] eqn:Htry;
           assert (Forall carriesHeldToken tr2) as Htr2
             by (eapply tryCreate_carries; [|exact Htry];
                 first [by apply truthy_Some in Ht as [-> _] | done])
       end.
  all: repeat case_match; cbn [trace]; cbn zeta.
  all: repeat (apply Forall_app; split); try done; try apply IH.
  all: repeat constructor; done.
Qed.

(** C8: every creation request of a run carries, in its [Token] header,
    the token held at the moment it is sent; and a pass that starts without
    a (non-empty) token first asks the service for one and sends its
    request under the token it is granted. *)
Theorem creation_request_carries_held_token cl values script st :
  Forall carriesHeldToken (trace (reqCreateUser cl values script st))
  /\ (forall srv rest files t,
        script = srv :: rest ->
        truthy (tokenRef st) = None ->
        tokenReply srv = Some t ->
        fileRef st = Some files ->
        exists tail,
          trace (reqCreateUser cl values script st)
          = (st, GetToken)
            :: (setToken (Some t) st, PostUsers (payload cl values files) t) :: tail).
Proof.
  split; [apply reqCreateUser_carries|].
  intros srv rest files t -> Ht Hr Hf.
  by apply reqCreateUser_fetches_token.
Qed.

Lemma creation_request_carries_held_token_witness :
  exists tail,
    trace (reqCreateUser (render formOpen) aliceValues [answersCreated "t1"]
             (setToken None formOpen))
    = (setToken None formOpen, GetToken)
      :: (setToken (Some "t1") (setToken None formOpen),
          PostUsers (payload (render formOpen) aliceValues [portrait]) "t1") :: tail.
Proof.
  apply (proj2 (creation_request_carries_held_token (render formOpen) aliceValues
                  [answersCreated "t1"] (setToken None formOpen))
           (answersCreated "t1") [] [portrait] "t1"); reflexivity.
Defined.

(** ** C5: field errors *)

Lemma setFieldErrors_cons kv entries st :
  setFieldErrors (kv :: entries) st
  = setFieldErrors entries (setFieldError kv.1 (join ". " kv.2) st).
Proof. reflexivity. Qed.

Lemma setFieldErrors_other entries : forall st key,
  key ∉ entries.*1 ->
  formErrors (setFieldErrors entries st) !! key = formErrors st !! key.
Proof.
  induction entries as [|kv entries IH]; intros st key Hk; [done|].
  rewrite fmap_cons in Hk. apply not_elem_of_cons in Hk as [Hne Hk].
  rewrite setFieldErrors_cons, IH by done.
  cbn [setFieldError formErrors]. by apply lookup_insert_ne.
Qed.

Lemma setFieldErrors_lookup entries : forall st key messages,
  NoDup entries.*1 ->
  (key, messages) ∈ entries ->
  formErrors (setFieldErrors entries st) !! key = Some (join ". " messages).
Proof.
  induction entries as [|kv entries IH]; intros st key messages Hnd Hin;
    [by apply elem_of_nil in Hin|].
  rewrite fmap_cons in Hnd. apply NoDup_cons in Hnd as [Hfresh Hnd].
  rewrite setFieldErrors_cons.
  apply elem_of_cons in Hin as [<-|Hin].
  - rewrite setFieldErrors_other by done.
    cbn [setFieldError formErrors fst snd]. apply lookup_insert_eq.
  - by apply IH.
Qed.

(** C5: when the POST is answered 422 with [success: false] and a [fails]
    object, the flow sets, for every field named in it, the field's error
    to the messages the service gave for it (joined by ". " when there are
    several), leaves the errors of the other fields, the list of users and
    the form as they are, sets the held token to null, sends nothing more
    and resolves. *)
Theorem validation_failure_sets_field_errors cl values srv rest st files
    error resp body entries :
  fileRef st = Some files ->
  tokenGranted srv = true ->
  postReply srv = inr error ->
  response error = Some resp ->
  data resp = Some body ->
  status resp = 422 ->
  success body = false ->
  fails body = Some entries ->
  NoDup entries.*1 ->
  outcome (reqCreateUser cl values (srv :: rest) st) = Resolved
  /\ (forall key messages,
        (key, messages) ∈ entries ->
        formErrors (final (reqCreateUser cl values (srv :: rest) st)) !! key
        = Some (join ". " messages))
  /\ (forall key,
        key ∉ entries.*1 ->
        formErrors (final (reqCreateUser cl values (srv :: rest) st)) !! key
        = formErrors st !! key)
  /\ users (final (reqCreateUser cl values (srv :: rest) st)) = users st
  /\ seen (final (reqCreateUser cl values (srv :: rest) st)) = seen st
  /\ tokenRef (final (reqCreateUser cl values (srv :: rest) st)) = None
  /\ token (final (reqCreateUser cl values (srv :: rest) st)) = None
  /\ length (posts (trace (reqCreateUser cl values (srv :: rest) st))) = 1%nat
  /\ alerts (trace (reqCreateUser cl values (srv :: rest) st)) = [].
Proof.
  intros Hf Hg Hpost Hresp Hdata Hst Hsucc Hfails Hnd. unfold tokenGranted in Hg.
  destruct (tokenReply srv) as [t'|] eqn:Hr; [|done].
  assert (exists t st1 pre,
            acquires srv st st1 pre t
            /\ reqCreateUser cl values (srv :: rest) st
               = {| final := setToken None (setFieldErrors entries st1);
                    trace := pre ++ [(st1, PostUsers (payload cl values files) t)];
                    outcome := Resolved |}) as (t & st1 & pre & Ha & ->).
  { destruct (truthy (tokenRef st)) as [t|] eqn:Ht.
    - exists t, st, []. split; [by left|].
      cbn [reqCreateUser]. rewrite Ht. unfold tryCreate.
      by rewrite Hf, Hpost, Hresp, Hdata, Hfails, Hst, Hsucc.
    - exists t', (setToken (Some t') st), [(st, GetToken)]. split; [by right|].
      cbn [reqCreateUser]. rewrite Ht, Hr. unfold tryCreate.
      replace (fileRef (setToken (Some t') st)) with (Some files) by done.
      by rewrite Hpost, Hresp, Hdata, Hfails, Hst, Hsucc. }
  destruct (acquires_held _ _ _ _ _ Ha) as (_ & _ & Hu & Hs & He).
  destruct (setFieldErrors_fields entries st1) as (Hu' & Hs' & _).
  cbn [final trace outcome setToken formErrors users seen tokenRef token].
  split_and!; try done.
  - intros key messages Hin. by apply setFieldErrors_lookup.
  - intros key Hk. by rewrite setFieldErrors_other, He.
  - by rewrite Hu'.
  - by rewrite Hs'.
  - rewrite posts_app, (acquires_posts _ _ _ _ _ Ha). done.
  - by destruct Ha as [(_ & _ & ->)|(_ & _ & _ & ->)].
Qed.

Lemma validation_failure_sets_field_errors_witness :
  formErrors (final (reqCreateUser (render formOpen) aliceValues
                       [answersInvalid] formOpen)) !! "email"
  = Some (join ". " ["The email must be a valid email address.";
                     "The email field is required."]).
Proof.
  refine (proj1 (proj2
    (validation_failure_sets_field_errors (render formOpen) aliceValues
       answersInvalid [] formOpen [portrait] invalid
       {| status := 422; data := Some invalidBody |} invalidBody invalidFields
       _ _ _ _ _ _ _ _ _)) "email" _ _); try reflexivity.
  - compute_done.
  - constructor.
Defined.

(** A click on Submit starts from an empty error object: the field errors
    of an earlier validation failure do not survive the next submission. *)
Example resubmission_drops_earlier_field_errors :
  let r1 := submit aliceValues [answersInvalid] formOpen in
  let r2 := submit aliceValues [answersServerError] (final r1) in
  formErrors (final r1) !! "phone" = Some "The phone field is required."
  /\ seen (final r1) = true
  /\ formErrors (final r2) !! "phone" = None
  /\ formErrors (final r2) !! "email" = None.
Proof. vm_compute. repeat split; reflexivity. Qed.

(** ** C10: an error without a response *)

(** C10: when the POST, or the GET that follows an accepted POST, fails
    with an error that has no [response], the destructuring of line 201
    throws: the promise is rejected with a [TypeError], no alert is shown,
    no field error is set, the request is not sent again, the list of
    users and the form are as before, and the [finally] block has set the
    held token to null. *)
Theorem error_without_response_rejects cl values srv rest st files error :
  fileRef st = Some files ->
  tokenGranted srv = true ->
  thrown srv = Some error ->
  response error = None ->
  outcome (reqCreateUser cl values (srv :: rest) st) = Rejected TypeError
  /\ alerts (trace (reqCreateUser cl values (srv :: rest) st)) = []
  /\ formErrors (final (reqCreateUser cl values (srv :: rest) st)) = formErrors st
  /\ length (posts (trace (reqCreateUser cl values (srv :: rest) st))) = 1%nat
  /\ users (final (reqCreateUser cl values (srv :: rest) st)) = users st
  /\ seen (final (reqCreateUser cl values (srv :: rest) st)) = seen st
  /\ tokenRef (final (reqCreateUser cl values (srv :: rest) st)) = None
  /\ token (final (reqCreateUser cl values (srv :: rest) st)) = None.
Proof.
  intros Hf Hg Hthrown Hresp. unfold tokenGranted in Hg. unfold thrown in Hthrown.
  destruct (tokenReply srv) as [t'|] eqn:Hr; [|done].
  assert (exists t st1 pre tail,
            acquires srv st st1 pre t
            /\ reqCreateUser cl values (srv :: rest) st
               = {| final := setToken None st1;
                    trace := pre ++ (st1, PostUsers (payload cl values files) t) :: tail;
                    outcome := Rejected TypeError |}
            /\ alerts tail = [] /\ posts tail = [])
    as (t & st1 & pre & tail & Ha & -> & Htail & Hposts).
  { destruct (truthy (tokenRef st)) as [t|] eqn:Ht.
    - exists t, st, [].
      cbn [reqCreateUser]. rewrite Ht. unfold tryCreate. rewrite Hf.
      destruct (postReply srv) as [userId|e]; [destruct (getReply srv) as [user|e]|];
        simplify_eq; rewrite Hresp; eexists; (split; [by left|]);
        (split; [reflexivity|done]).
    - exists t', (setToken (Some t') st), [(st, GetToken)].
      cbn [reqCreateUser]. rewrite Ht, Hr. unfold tryCreate.
      replace (fileRef (setToken (Some t') st)) with (Some files) by done.
      destruct (postReply srv) as [userId|e]; [destruct (getReply srv) as [user|e]|];
        simplify_eq; rewrite Hresp; eexists; (split; [by right|]);
        (split; [reflexivity|done]). }
  destruct (acquires_held _ _ _ _ _ Ha) as (_ & _ & Hu & Hs & He).
  cbn [final trace outcome setToken formErrors users seen tokenRef token].
  split_and!; try done.
  - destruct Ha as [(_ & _ & ->)|(_ & _ & _ & ->)]; exact Htail.
  - rewrite posts_app, (acquires_posts _ _ _ _ _ Ha).
    change (posts ((st1, PostUsers (payload cl values files) t) :: tail))
      with ((st1, PostUsers (payload cl values files) t) :: posts tail).
    by rewrite Hposts.
Qed.

Lemma error_without_response_rejects_witness :
  outcome (reqCreateUser (render formOpen) aliceValues [answersOffline] formOpen)
  = Rejected TypeError.
Proof.
  refine (proj1 (error_without_response_rejects (render formOpen) aliceValues
                   answersOffline [] formOpen [portrait] {| response := None |}
                   _ _ _ _)); reflexivity.
Defined.

Example lookup_failure_without_response :
  let r := submit aliceValues
             [{| tokenReply := Some "t1"; postReply := inl "31";
                 getReply := inr {| response := None |} |}] formOpen in
  outcome r = Rejected TypeError
  /\ map snd (trace r)
     = [PostUsers (payload (render formOpen) aliceValues [portrait]) "t0"; GetUser "31"]
  /\ users (final r) = [] /\ seen (final r) = true /\ tokenRef (final r) = None.
Proof. vm_compute. repeat split; reflexivity. Qed.

(** ** C9: how the list of users changes *)

Lemma reqCreateUser_users script : forall cl values st,
  users (final (reqCreateUser cl values script st)) = users st
  \/ exists created,
       users (final (reqCreateUser cl values script st)) = created :: users st.
Proof.
  induction script as [|srv rest IH]; intros cl values st; [by left|].
  cbn [reqCreateUser].
  destruct (truthy (tokenRef st)) as [t|] eqn:Ht.
  2: destruct (tokenReply srv) as [t|];
       [|left; cbn [final]; by destruct (togglePopCreateUser_fields cl st) as (-> & _)].
  all: destruct_tryCreate.
  all: try (apply tryCreate_threw in Htry as ->).
  all: try (apply tryCreate_done in Htry as (? & ? & user & _ & _ & _ & -> & _);
            right; exists user; cbn [final setToken users];
            by match goal with
               | |- context [togglePopCreateUser ?c ?x] =>
                   destruct (togglePopCreateUser_fields c x) as (-> & _)
               end).
  all: repeat case_match; cbn [final]; try (by left).
  all: try (left; cbn [setToken users];
            by match goal with
               | |- context [setFieldErrors ?l ?x] =>
                   destruct (setFieldErrors_fields l x) as (-> & _)
               end).
  all: match goal with
       | |- context [reqCreateUser ?c ?v _ ?x] =>
           destruct (IH c v x) as [->|[created ->]]; [left|right; exists created]
       end.
  all: cbn [setToken users]; try done.
  all: by match goal with
          | |- context [setFieldErrors ?l ?x] =>
              destruct (setFieldErrors_fields l x) as (-> & _)
          end.
Qed.

Lemma step_users a s : listUpdate a (users (app s)) (users (app (step a s))).
Proof.
  destruct a as [| |i answer|answer| |reply| |o|files|values script];
    cbn [listUpdate step].
  - by destruct (phase s).
  - by destruct (mounted s).
  - destruct (pageRequests s !! i) as [rq|]; [|by left].
    destruct (rq_settled rq); [by left|].
    unfold settle. destruct (rq_cancelled rq); [by left|].
    destruct answer as [res|]; [right; by exists res|by left].
  - destruct (positionsRequest s) as [rq|]; [|done].
    destruct (rq_settled rq); [done|].
    unfold settle. destruct (rq_cancelled rq); [done|]. by destruct answer.
  - destruct (mounted s); [|done]. cbn [negb].
    destruct (truthy (nextPage (app s))) as [url|]; [|done].
    by destruct (String.eqb url (currPage (app s))).
  - destruct (mounted s); [|done]. cbn [negb withApp app].
    destruct reply as [t|]; [|done]. cbn [onClickUserCreate final].
    by destruct (togglePopCreateUser_fields (render (app s)) (setToken (Some t) (app s)))
      as (-> & _).
  - destruct (mounted s); [|done]. cbn [negb].
    destruct (seen (app s)); [|done]. cbn [withApp app].
    by destruct (togglePopCreateUser_fields (render (app s)) (app s)) as (-> & _).
  - destruct (mounted s); [|done]. cbn [negb]. by destruct (seen (app s)).
  - destruct (mounted s); [|done]. cbn [negb]. by destruct (seen (app s)).
  - destruct (mounted s); [|by left]. cbn [negb withApp app]. unfold submit.
    destruct (seen (app s)); [|by left].
    apply (reqCreateUser_users script (render (app s)) values (resetFieldErrors (app s))).
Qed.

Lemma listUpdate_grows a before after :
  listUpdate a before after -> exists front back, after = front ++ before ++ back.
Proof.
  assert (before = [] ++ before ++ []) as Hsame by (by rewrite app_nil_r).
  destruct a; cbn [listUpdate];
    try (intros ->; by exists [], []).
  - intros [->|(res & _ & ->)]; [by exists [], []|]. by exists [], (page_users res).
  - intros [->|(created & ->)]; [by exists [], []|].
    exists [created], []. by rewrite app_nil_r.
Qed.

(** C9: in a session, one action leaves the list of users as it is, or
    (a page fetch that succeeds) puts the users of that page after it, or
    (a submission) puts one created user before it.  So after any sequence
    of actions the list is the earlier list, whole and in its order,
    between what was put before it and what was put after it. *)
Theorem list_only_grows :
  (forall a s, listUpdate a (users (app s)) (users (app (step a s))))
  /\ (forall actions s,
        exists front back,
          users (app (runSession actions s)) = front ++ users (app s) ++ back).
Proof.
  split; [apply step_users|].
  induction actions as [|a actions IH]; intros s.
  - exists [], []. by rewrite app_nil_r.
  - change (runSession (a :: actions) s) with (runSession actions (step a s)).
    destruct (IH (step a s)) as (front & back & ->).
    destruct (listUpdate_grows _ _ _ (step_users a s)) as (front' & back' & ->).
    exists (front ++ front'), (back' ++ back). by rewrite <- !app_assoc.
Qed.

(** ** C7: the list after a run of page fetches *)

Lemma fetchPages_users pages : forall st,
  users (fetchPages pages st) = users st ++ allUsers pages.
Proof.
  induction pages as [|res pages IH]; intros st.
  - by rewrite app_nil_r.
  - change (fetchPages (res :: pages) st)
      with (fetchPages pages (fst (onUsersSettled (Fulfilled res) st))).
    rewrite IH. cbn [onUsersSettled fst setNextPage setUsers users].
    unfold allUsers. rewrite fmap_cons. cbn [concat]. by rewrite app_assoc.
Qed.

Lemma allUsers_length pages :
  Forall (fun res => count res = Z.of_nat (length (page_users res))) pages ->
  Z.of_nat (length (allUsers pages)) = sumCounts pages.
Proof.
  induction 1 as [|res pages Hres _ IH]; [done|].
  unfold allUsers in *. rewrite fmap_cons. cbn [concat sumCounts foldr].
  rewrite length_app, Nat2Z.inj_add, IH, Hres. done.
Qed.

Lemma listEvents_users events : forall st,
  users (listEvents events st)
  = reverse (createdUsers events) ++ users st ++ allUsers (fetchedPages events).
Proof.
  induction events as [|e events IH]; intros st.
  - cbn. by rewrite app_nil_r.
  - change (listEvents (e :: events) st) with (listEvents events (listEvent e st)).
    rewrite IH. destruct e as [res|user].
    + change (fetchedPages (PageFetched res :: events)) with (res :: fetchedPages events).
      change (createdUsers (PageFetched res :: events)) with (createdUsers events).
      cbn [listEvent onUsersSettled fst setNextPage setUsers users].
      unfold allUsers. rewrite fmap_cons. cbn [concat]. by rewrite <- !app_assoc.
    + change (fetchedPages (UserCreated user :: events)) with (fetchedPages events).
      change (createdUsers (UserCreated user :: events)) with (user :: createdUsers events).
      cbn [listEvent setUsers users]. rewrite reverse_cons. by rewrite <- !app_assoc.
Qed.

Lemma step_listEvents a s :
  exists happened, users (app (step a s)) = users (listEvents happened (app s)).
Proof.
  pose proof (step_users a s) as H.
  assert (users (app (step a s)) = users (app s)
          \/ (exists res, users (app (step a s)) = users (app s) ++ page_users res)
          \/ (exists created, users (app (step a s)) = created :: users (app s)))
    as [->|[[res ->]|[created ->]]].
  { destruct a; cbn [listUpdate] in H; try (by left).
    - destruct H as [H|(res & _ & H)]; [by left|right; left; by exists res].
    - destruct H as [H|(created & H)]; [by left|right; right; by exists created]. }
  - by exists [].
  - by exists [PageFetched res].
  - by exists [UserCreated created].
Qed.

Lemma runSession_listEvents actions : forall s,
  exists happened,
    users (app (runSession actions s)) = users (listEvents happened (app s)).
Proof.
  induction actions as [|a actions IH]; intros s; [by exists []|].
  change (runSession (a :: actions) s) with (runSession actions (step a s)).
  destruct (IH (step a s)) as [later Hlater].
  destruct (step_listEvents a s) as [first Hfirst].
  exists (first ++ later).
  unfold listEvents at 1. rewrite foldl_app. fold (listEvents first (app s)).
  fold (listEvents later (listEvents first (app s))).
  rewrite Hlater, (listEvents_users later (app (step a s))).
  by rewrite (listEvents_users later (listEvents first (app s))), Hfirst.
Qed.

(** C7, as the code has it: after a sequence of successful page fetches,
    with or without user creations in between, the list is the created
    users (the latest first), then the list as it was before, then the
    [users] arrays of the fetched pages in fetch order.  Its length is the
    number of created users plus the length before plus the sum of the
    [count] fields of the fetched pages, whenever every page carries as
    many users as its [count] says.  The client removes no duplicate: the
    list is free of duplicates exactly when the created users, the users
    listed before and the users of the fetched pages, taken together,
    are.  These fetches and creations are all that happens to the list in
    a session. *)
Theorem pages_appended_in_order events st :
  users (listEvents events st)
  = reverse (createdUsers events) ++ users st ++ allUsers (fetchedPages events)
  /\ (Forall (fun res => count res = Z.of_nat (length (page_users res)))
             (fetchedPages events) ->
      Z.of_nat (length (users (listEvents events st)))
      = Z.of_nat (length (createdUsers events)) + Z.of_nat (length (users st))
        + sumCounts (fetchedPages events))
  /\ (NoDup (users (listEvents events st))
      <-> NoDup (createdUsers events ++ users st ++ allUsers (fetchedPages events)))
  /\ (forall actions s,
        exists happened,
          users (app (runSession actions s)) = users (listEvents happened (app s))).
Proof.
  split_and!.
  - apply listEvents_users.
  - intros Hc.
    rewrite listEvents_users, !length_app, length_reverse, !Nat2Z.inj_add.
    rewrite allUsers_length by done. lia.
  - by rewrite listEvents_users, reverse_Permutation.
  - apply runSession_listEvents.
Qed.

Lemma pages_appended_in_order_witness :
  Z.of_nat (length (users (listEvents
              [PageFetched (page [bob] (Some "p2")); UserCreated alice;
               PageFetched (page [bob] None)] initialState)))
  = Z.of_nat (length (createdUsers
                [PageFetched (page [bob] (Some "p2")); UserCreated alice;
                 PageFetched (page [bob] None)]))
    + Z.of_nat (length (users initialState))
    + sumCounts (fetchedPages
                   [PageFetched (page [bob] (Some "p2")); UserCreated alice;
                    PageFetched (page [bob] None)]).
Proof.
  apply (proj1 (proj2 (pages_appended_in_order
           [PageFetched (page [bob] (Some "p2")); UserCreated alice;
            PageFetched (page [bob] None)] initialState))).
  repeat constructor.
Defined.

(** C7, as the claim states it, fails, in both halves.  In a session the
    first page (of one user, bob) is fetched, alice is created, and the
    second page, which the creation has shifted, brings bob again: every
    [count] is right, yet the list has three entries against a sum of
    counts of two, and bob is listed from two different pages.  And the
    client never reads [count]: the last page of a listing by six reports
    [count = 6] and carries one user, so the list has one entry against a
    count of six. *)
Lemma session_list_counterexample :
  let first := page [bob] (Some "p2") in
  let second := page [bob] None in
  let s := runSession
             [Mount; PageAnswer 0 (Some first);
              ClickCreateUser (Some "t0"); SubmitForm aliceValues [answersCreated "t1"];
              ClickShowMore; PageAnswer 1 (Some second)]
             initialSession in
  let short := runSession [Mount; PageAnswer 0 (Some shortLastPage)] initialSession in
  users (app s) = [alice; bob; bob]
  /\ count first = 1 /\ count second = 1
  /\ Z.of_nat (length (users (app s))) <> sumCounts [first; second]
  /\ bob ∈ page_users first /\ bob ∈ page_users second
  /\ ~ NoDup (users (app s))
  /\ users (app short) = [bob]
  /\ Z.of_nat (length (users (app short))) <> sumCounts [shortLastPage].
Proof.
  cbn zeta.
  assert (users (app (runSession
            [Mount; PageAnswer 0 (Some (page [bob] (Some "p2")));
             ClickCreateUser (Some "t0"); SubmitForm aliceValues [answersCreated "t1"];
             ClickShowMore; PageAnswer 1 (Some (page [bob] None))]
            initialSession)) = [alice; bob; bob]) as -> by (vm_compute; reflexivity).
  assert (users (app (runSession [Mount; PageAnswer 0 (Some shortLastPage)]
                        initialSession)) = [bob]) as -> by (vm_compute; reflexivity).
  split_and!; try done; try (by left).
  intros Hnd. apply NoDup_cons in Hnd as [_ Hnd].
  apply NoDup_cons in Hnd as [Hin _]. apply Hin. left.
Qed.

(** ** C6: a cancelled page fetch *)

Lemma cancelLatest_length rqs : length (cancelLatest rqs) = length rqs.
Proof. apply length_alter. Qed.

Lemma cancelLatest_lookup rqs i rq :
  cancelLatest rqs !! i = Some rq ->
  (S i = length rqs /\ rq_cancelled rq = true)
  \/ (S i <> length rqs /\ rqs !! i = Some rq).
Proof.
  unfold cancelLatest. intros H.
  destruct (decide (i = pred (length rqs))) as [->|Hne].
  - rewrite list_lookup_alter_eq in H.
    destruct (rqs !! pred (length rqs)) as [rq0|] eqn:E; simpl in H; [|done].
    injection H as <-. left. split; [|done].
    apply lookup_lt_Some in E. lia.
  - rewrite list_lookup_alter_ne in H by done. right. split; [lia|done].
Qed.

Lemma step_supersededCancelled a s :
  supersededCancelled s -> supersededCancelled (step a s).
Proof.
  intros Hinv.
  assert (forall st tr, supersededCancelled (withApp s st tr)) as Hwith
    by (intros st tr i rq; apply Hinv).
  destruct a as [| |i answer|answer| |reply| |o|files|values script]; cbn [step].
  - destruct (phase s) eqn:Hm; [|done..].
    intros i rq Hl [Hlt|[? _]]; [|done]. cbn [pageRequests] in *.
    rewrite length_app in Hlt. cbn [length] in Hlt.
    rewrite lookup_app_l in Hl by lia.
    apply (Hinv i rq Hl). right. unfold mounted. rewrite Hm. split; [done|lia].
  - destruct (mounted s) eqn:Hm; [|done]. cbn [negb].
    intros i rq Hl Hsup. cbn [pageRequests] in *.
    apply cancelLatest_lookup in Hl as [[_ Hc]|[Hne Hl]]; [done|].
    apply (Hinv i rq Hl). left. apply lookup_lt_Some in Hl. lia.
  - destruct (pageRequests s !! i) as [rq0|] eqn:Hi; [|done].
    destruct (rq_settled rq0); [done|].
    destruct (onUsersSettled (settle rq0 answer) (app s)) as [st tr].
    intros j rq Hl Hsup. unfold superseded in Hsup. cbn [pageRequests mounted] in *.
    rewrite length_insert in Hsup.
    destruct (decide (i = j)) as [<-|Hne].
    + rewrite list_lookup_insert_eq in Hl by (by eapply lookup_lt_Some).
      injection Hl as <-. cbn [markSettled rq_cancelled]. by apply (Hinv i rq0).
    + rewrite list_lookup_insert_ne in Hl by done. by apply (Hinv j rq).
  - destruct (positionsRequest s) as [rq0|]; [|done].
    destruct (rq_settled rq0); [done|].
    destruct (onPositionsSettled (settle rq0 answer) (app s)) as [st tr].
    intros j rq Hl Hsup. by apply (Hinv j rq).
  - destruct (mounted s) eqn:Hm; [|done]. cbn [negb].
    destruct (truthy (nextPage (app s))) as [url|]; [|done].
    destruct (String.eqb url (currPage (app s))); [done|].
    intros i rq Hl [Hlt|[? _]]; [|done]. cbn [pageRequests] in *.
    rewrite length_app, cancelLatest_length in Hlt. cbn [length] in Hlt.
    rewrite lookup_app_l in Hl by (rewrite cancelLatest_length; lia).
    apply cancelLatest_lookup in Hl as [[_ Hc]|[Hne Hl]]; [done|].
    apply (Hinv i rq Hl). left. apply lookup_lt_Some in Hl. lia.
  - destruct (mounted s); [|done]. apply Hwith.
  - destruct (mounted s); [|done]. cbn [negb]. destruct (seen (app s)); [apply Hwith|done].
  - destruct (mounted s); [|done]. cbn [negb]. destruct (seen (app s)); [apply Hwith|done].
  - destruct (mounted s); [|done]. cbn [negb]. destruct (seen (app s)); [apply Hwith|done].
  - destruct (mounted s); [|done]. apply Hwith.
Qed.

Lemma runSession_supersededCancelled actions : forall s,
  supersededCancelled s -> supersededCancelled (runSession actions s).
Proof.
  induction actions as [|a actions IH]; intros s Hinv; [done|].
  apply (IH (step a s)). by apply step_supersededCancelled.
Qed.

(** C6: in any session, once the page request number [i] has been
    superseded (the cursor has changed or the component is unmounted) the
    request is cancelled, and when its promise settles, whatever the
    service answered, the state (so the list of users) and the history (so
    the alerts shown) stay as they are. *)
Theorem cancelled_fetch_is_dropped actions i answer :
  superseded (runSession actions initialSession) i ->
  (exists rq,
     pageRequests (runSession actions initialSession) !! i = Some rq
     /\ rq_cancelled rq = true)
  /\ users (app (step (PageAnswer i answer) (runSession actions initialSession)))
     = users (app (runSession actions initialSession))
  /\ alerts (history (step (PageAnswer i answer) (runSession actions initialSession)))
     = alerts (history (runSession actions initialSession)).
Proof.
  intros Hsup.
  assert (supersededCancelled (runSession actions initialSession)) as Hinv
    by (apply runSession_supersededCancelled; intros j rq Hl; done).
  destruct (pageRequests (runSession actions initialSession) !! i) as [rq|] eqn:Hi.
  2: { apply lookup_ge_None in Hi. destruct Hsup as [?|[_ ?]]; lia. }
  pose proof (Hinv i rq Hi Hsup) as Hc.
  split; [by exists rq|].
  cbn [step]. rewrite Hi. destruct (rq_settled rq); [done|].
  unfold settle. rewrite Hc. cbn [onUsersSettled app history].
  by rewrite app_nil_r.
Qed.

Lemma cancelled_fetch_is_dropped_witness :
  users (app (step (PageAnswer 0 (Some (page [alice] None)))
                (runSession [Mount; Unmount] initialSession)))
  = users (app (runSession [Mount; Unmount] initialSession)).
Proof.
  refine (proj1 (proj2 (cancelled_fetch_is_dropped [Mount; Unmount] 0
                          (Some (page [alice] None)) _))).
  right. split; [reflexivity|]. vm_compute. lia.
Defined.

(** * Further properties of the create-user flow *)

Lemma alerts_app (a b : Trace) : alerts (a ++ b) = alerts a ++ alerts b.
Proof. apply omap_app. Qed.

Lemma acquires_alerts srv st st1 pre t : acquires srv st st1 pre t -> alerts pre = [].
Proof. by intros [(_ & _ & ->)|(_ & _ & _ & ->)]. Qed.

(** ** The token fetch of a pass fails *)

Lemma reqCreateUser_refused cl values srv rest st :
  truthy (tokenRef st) = None ->
  tokenReply srv = None ->
  reqCreateUser cl values (srv :: rest) st
  = {| final := togglePopCreateUser cl st;
       trace := [(st, GetToken); (st, Alert TOKEN_ERROR_MESSAGE)];
       outcome := Resolved |}.
Proof. intros Ht Hr. cbn [reqCreateUser]. by rewrite Ht, Hr. Qed.

(** X1: when the service refuses the token a pass asks for (lines
    165-176) - the first pass, started without a token, or a later one,
    after "unauthorized" answers - the run ends there and resolves: the
    creation request of that pass is never sent, the operator is told
    "Cannot authorize ..." after one "token has expired" alert per earlier
    pass, the form is toggled (closed, from an open form), the list of
    users is as before and no token is held. *)
Theorem refused_token_ends_the_run cl values pre lst rest : forall st files,
  fileRef st = Some files ->
  Forall (fun srv => tokenGranted srv = true /\ postUnauthorized srv = true) pre ->
  tokenReply lst = None ->
  (pre = [] -> truthy (tokenRef st) = None) ->
  outcome (reqCreateUser cl values (pre ++ lst :: rest) st) = Resolved
  /\ length (posts (trace (reqCreateUser cl values (pre ++ lst :: rest) st)))
     = length pre
  /\ alerts (trace (reqCreateUser cl values (pre ++ lst :: rest) st))
     = replicate (length pre) TOKEN_EXPIRED_MESSAGE ++ [TOKEN_ERROR_MESSAGE]
  /\ seen (final (reqCreateUser cl values (pre ++ lst :: rest) st)) = negb (cl_seen cl)
  /\ users (final (reqCreateUser cl values (pre ++ lst :: rest) st)) = users st
  /\ truthy (tokenRef (final (reqCreateUser cl values (pre ++ lst :: rest) st))) = None.
Proof.
  induction pre as [|srv pre IH]; intros st files Hf Hpre Hr Hstart.
  - change ([] ++ lst :: rest) with (lst :: rest).
    rewrite reqCreateUser_refused by auto. cbn [final trace outcome].
    destruct (togglePopCreateUser_fields cl st) as (-> & -> & _ & ->).
    split_and!; auto.
  - apply Forall_cons in Hpre as [[Hg1 Hu1] Hpre].
    destruct (reqCreateUser_unauthorized cl values srv (pre ++ lst :: rest) st files
                Hf Hg1 Hu1) as (t & st1 & tr & Ha & Heq).
    change ((srv :: pre) ++ lst :: rest) with (srv :: (pre ++ lst :: rest)).
    rewrite Heq. cbn [final trace outcome].
    destruct (acquires_held _ _ _ _ _ Ha) as (_ & Hf1 & Hu & _).
    destruct (IH (setToken None st1) files) as (Ho & Hn & Hal & Hseen & Hus & Htok);
      [by rewrite <- Hf|done..|].
    split_and!; try done.
    + rewrite !posts_app, (acquires_posts _ _ _ _ _ Ha).
      change (posts [(st1, PostUsers (payload cl values files) t);
                     (st1, Alert TOKEN_EXPIRED_MESSAGE)])
        with [(st1, PostUsers (payload cl values files) t)].
      simpl. by rewrite Hn.
    + rewrite !alerts_app, (acquires_alerts _ _ _ _ _ Ha), Hal. done.
    + by rewrite Hus, <- Hu.
Qed.

Lemma refused_token_ends_the_run_witness :
  alerts (trace (reqCreateUser (render formOpen) aliceValues
                   ([answers401 "t1"] ++ answersNoToken :: []) formOpen))
  = replicate (length [answers401 "t1"]) TOKEN_EXPIRED_MESSAGE ++ [TOKEN_ERROR_MESSAGE].
Proof.
  refine (proj1 (proj2 (proj2
    (refused_token_ends_the_run (render formOpen) aliceValues
       [answers401 "t1"] answersNoToken [] formOpen [portrait] _ _ _ _)))).
  - reflexivity.
  - repeat constructor.
  - reflexivity.
  - discriminate.
Defined.

(** ** The photo input is not attached *)

(** X2: when [fileRef.current] is null, building the request body (line
    184) throws before the creation request is made and the handler throws
    again at line 201: the promise is rejected with a [TypeError], no
    creation request is sent (a token may have been fetched), no alert is
    shown, the list of users and the form are as before, and the [finally]
    block has set the held token to null. *)
Theorem detached_input_rejects cl values srv rest st :
  fileRef st = None ->
  tokenGranted srv = true ->
  outcome (reqCreateUser cl values (srv :: rest) st) = Rejected TypeError
  /\ posts (trace (reqCreateUser cl values (srv :: rest) st)) = []
  /\ alerts (trace (reqCreateUser cl values (srv :: rest) st)) = []
  /\ users (final (reqCreateUser cl values (srv :: rest) st)) = users st
  /\ seen (final (reqCreateUser cl values (srv :: rest) st)) = seen st
  /\ tokenRef (final (reqCreateUser cl values (srv :: rest) st)) = None
  /\ token (final (reqCreateUser cl values (srv :: rest) st)) = None.
Proof.
  intros Hf Hg. unfold tokenGranted in Hg.
  destruct (tokenReply srv) as [t'|] eqn:Hr; [|done].
  cbn [reqCreateUser]. rewrite Hr. unfold tryCreate.
  destruct (truthy (tokenRef st)) as [t|].
  - rewrite Hf. done.
  - replace (fileRef (setToken (Some t') st)) with (@None (list File)) by done. done.
Qed.

Lemma detached_input_rejects_witness :
  outcome (reqCreateUser (render initialState) aliceValues
             [answersCreated "t1"] initialState) = Rejected TypeError.
Proof.
  refine (proj1 (detached_input_rejects (render initialState) aliceValues
                   (answersCreated "t1") [] initialState _ _)); reflexivity.
Defined.

(** ** What of the form values reaches the service *)

Lemma tryCreate_values cl values values' srv t st :
  cu_name values = cu_name values' ->
  cu_email values = cu_email values' ->
  cu_phone values = cu_phone values' ->
  tryCreate cl values srv t st = tryCreate cl values' srv t st.
Proof.
  intros Hn He Hp. unfold tryCreate, payload. by rewrite Hn, He, Hp.
Qed.

(** X3: the [photo] and [position_id] that Formik holds are overwritten
    in the request body (lines 182-184) and read nowhere else: two
    submissions whose values agree on name, email and phone run alike -
    the same requests, alerts, final state and outcome. *)
Theorem form_photo_and_position_ignored script : forall cl values values' st,
  cu_name values = cu_name values' ->
  cu_email values = cu_email values' ->
  cu_phone values = cu_phone values' ->
  reqCreateUser cl values script st = reqCreateUser cl values' script st.
Proof.
  induction script as [|srv rest IH]; intros cl values values' st Hn He Hp; [done|].
  cbn [reqCreateUser].
  destruct (truthy (tokenRef st)) as [t|].
  2: destruct (tokenReply srv) as [t|]; [|done].
  all: rewrite (tryCreate_values cl values values') by done.
  all: destruct_tryCreate; [|done].
  all: repeat case_match; try done.
  all: by rewrite (IH cl values values').
Qed.

Lemma form_photo_and_position_ignored_witness :
  reqCreateUser (render formOpen) aliceValues [answersCreated "t1"] formOpen
  = reqCreateUser (render formOpen)
      {| cu_name := "Alice"; cu_email := "alice@example.com";
         cu_phone := "+380955388485"; cu_photo := "C:\fakepath\other.jpg";
         cu_position_id := 9 |}
      [answersCreated "t1"] formOpen.
Proof.
  apply (form_photo_and_position_ignored [answersCreated "t1"] (render formOpen));
    reflexivity.
Defined.

(** ** The lookup of the created user is answered "unauthorized" *)

(** X4: the [catch] clause also receives the errors of the follow-up
    [GET /users/:id].  When the POST is accepted and that lookup is
    answered 401 with a falsy [success], the flow takes the retry branch
    of lines 212-216: it alerts, fetches a new token and sends the
    creation request a second time, with the same body, although the
    service had accepted the first one. *)
Theorem unauthorized_lookup_posts_again cl values srv1 srv2 rest st files
    userId error t2 :
  fileRef st = Some files ->
  tokenGranted srv1 = true ->
  postReply srv1 = inl userId ->
  getReply srv1 = inr error ->
  isUnauthorized error = true ->
  tokenReply srv2 = Some t2 ->
  exists front st1 t1 tail,
    trace (reqCreateUser cl values (srv1 :: srv2 :: rest) st)
    = front ++ [(st1, PostUsers (payload cl values files) t1);
                (st1, GetUser userId);
                (st1, Alert TOKEN_EXPIRED_MESSAGE);
                (setToken None st1, GetToken);
                (setToken (Some t2) (setToken None st1),
                 PostUsers (payload cl values files) t2)]
            ++ tail
    /\ posts front = []
    /\ users st1 = users st.
Proof.
  intros Hf Hg Hpost Hget Hu Hr. unfold tokenGranted in Hg.
  destruct (tokenReply srv1) as [t'|] eqn:Hr1; [|done].
  apply isUnauthorized_inv in Hu as (resp & body & Hresp & Hdata & Hst & Hsucc).
  assert (exists t1 st1 front,
            acquires srv1 st st1 front t1
            /\ trace (reqCreateUser cl values (srv1 :: srv2 :: rest) st)
               = front ++ [(st1, PostUsers (payload cl values files) t1);
                           (st1, GetUser userId);
                           (st1, Alert TOKEN_EXPIRED_MESSAGE)]
                       ++ trace (reqCreateUser cl values (srv2 :: rest) (setToken None st1)))
    as (t1 & st1 & front & Ha & ->).
  { destruct (truthy (tokenRef st)) as [t|] eqn:Ht.
    - exists t, st, []. split; [by left|].
      cbn [reqCreateUser]. rewrite Ht. unfold tryCreate.
      rewrite Hf, Hpost, Hget, Hresp, Hdata, Hst, Hsucc. simpl. by destruct (fails body).
    - exists t', (setToken (Some t') st), [(st, GetToken)]. split; [by right|].
      cbn [reqCreateUser]. rewrite Ht, Hr1. unfold tryCreate.
      replace (fileRef (setToken (Some t') st)) with (Some files) by done.
      rewrite Hpost, Hget, Hresp, Hdata, Hst, Hsucc. simpl. by destruct (fails body). }
  destruct (acquires_held _ _ _ _ _ Ha) as (_ & Hf1 & Hus & _).
  destruct (reqCreateUser_fetches_token cl values srv2 rest (setToken None st1) files t2)
    as [tail Htail]; [done|done|by rewrite <- Hf|].
  exists front, st1, t1, tail. rewrite Htail.
  split_and!; [done| |done]. by eapply acquires_posts.
Qed.

Lemma unauthorized_lookup_posts_again_witness :
  exists front st1 t1 tail,
    trace (reqCreateUser (render formOpen) aliceValues
             [answersLookup401; answersCreated "t2"] formOpen)
    = front ++ [(st1, PostUsers (payload (render formOpen) aliceValues [portrait]) t1);
                (st1, GetUser "31");
                (st1, Alert TOKEN_EXPIRED_MESSAGE);
                (setToken None st1, GetToken);
                (setToken (Some "t2") (setToken None st1),
                 PostUsers (payload (render formOpen) aliceValues [portrait]) "t2")]
            ++ tail
    /\ posts front = []
    /\ users st1 = users formOpen.
Proof.
  apply (unauthorized_lookup_posts_again (render formOpen) aliceValues
           answersLookup401 (answersCreated "t2") [] formOpen [portrait]
           "31" unauthorized "t2"); reflexivity.
Defined.

(** ** Any other HTTP error *)

(** X5: an error of the POST or of the lookup that carries a response
    with a body and a status other than 401 and 422 (a 500, a 404 of the
    lookup, ...) falls through both tests of the handler: the promise
    resolves, no alert is shown and no field error is set, so the operator
    is told nothing; the list of users and the form are as before, the
    request is not sent again and the held token is null. *)
Theorem other_http_error_is_silent cl values srv rest st files error resp body :
  fileRef st = Some files ->
  tokenGranted srv = true ->
  thrown srv = Some error ->
  response error = Some resp ->
  data resp = Some body ->
  status resp <> 401 ->
  status resp <> 422 ->
  outcome (reqCreateUser cl values (srv :: rest) st) = Resolved
  /\ alerts (trace (reqCreateUser cl values (srv :: rest) st)) = []
  /\ formErrors (final (reqCreateUser cl values (srv :: rest) st)) = formErrors st
  /\ length (posts (trace (reqCreateUser cl values (srv :: rest) st))) = 1%nat
  /\ users (final (reqCreateUser cl values (srv :: rest) st)) = users st
  /\ seen (final (reqCreateUser cl values (srv :: rest) st)) = seen st
  /\ tokenRef (final (reqCreateUser cl values (srv :: rest) st)) = None
  /\ token (final (reqCreateUser cl values (srv :: rest) st)) = None.
Proof.
  intros Hf Hg Hthrown Hresp Hdata H401 H422.
  unfold tokenGranted in Hg. unfold thrown in Hthrown.
  apply Z.eqb_neq in H401, H422.
  destruct (tokenReply srv) as [t'|] eqn:Hr; [|done].
  assert (exists t st1 pre tail,
            acquires srv st st1 pre t
            /\ reqCreateUser cl values (srv :: rest) st
               = {| final := setToken None st1;
                    trace := pre ++ (st1, PostUsers (payload cl values files) t) :: tail;
                    outcome := Resolved |}
            /\ alerts tail = [] /\ posts tail = [])
    as (t & st1 & pre & tail & Ha & -> & Htail & Hposts).
  { destruct (truthy (tokenRef st)) as [t|] eqn:Ht.
    - exists t, st, [].
      cbn [reqCreateUser]. rewrite Ht. unfold tryCreate. rewrite Hf.
      destruct (postReply srv) as [userId|e]; [destruct (getReply srv) as [user|e]|];
        simplify_eq; rewrite Hresp, Hdata, H401, H422; cbn [andb];
        destruct (fails body); eexists; (split; [by left|]);
        (split; [reflexivity|done]).
    - exists t', (setToken (Some t') st), [(st, GetToken)].
      cbn [reqCreateUser]. rewrite Ht, Hr. unfold tryCreate.
      replace (fileRef (setToken (Some t') st)) with (Some files) by done.
      destruct (postReply srv) as [userId|e]; [destruct (getReply srv) as [user|e]|];
        simplify_eq; rewrite Hresp, Hdata, H401, H422; cbn [andb];
        destruct (fails body); eexists; (split; [by right|]);
        (split; [reflexivity|done]). }
  destruct (acquires_held _ _ _ _ _ Ha) as (_ & _ & Hu & Hs & He).
  cbn [final trace outcome setToken formErrors users seen tokenRef token].
  split_and!; try done.
  - by rewrite alerts_app, (acquires_alerts _ _ _ _ _ Ha).
  - rewrite posts_app, (acquires_posts _ _ _ _ _ Ha).
    change (posts ((st1, PostUsers (payload cl values files) t) :: tail))
      with ((st1, PostUsers (payload cl values files) t) :: posts tail).
    by rewrite Hposts.
Qed.

Lemma other_http_error_is_silent_witness :
  alerts (trace (reqCreateUser (render formOpen) aliceValues
                   [answersServerError] formOpen)) = [].
Proof.
  refine (proj1 (proj2
    (other_http_error_is_silent (render formOpen) aliceValues answersServerError []
       formOpen [portrait] serverError
       {| status := 500; data := Some {| success := false; fails := None |} |}
       {| success := false; fails := None |} _ _ _ _ _ _ _))); try reflexivity.
  all: discriminate.
Defined.

(** ** Counting the requests of a run *)

Lemma expiredAlerts_app (a b : Trace) :
  expiredAlerts (a ++ b) = expiredAlerts a ++ expiredAlerts b.
Proof. unfold expiredAlerts. by rewrite alerts_app, filter_app. Qed.

Lemma tryCreate_posts cl values srv t st st2 tr2 e :
  tryCreate cl values srv t st = (st2, tr2, e) -> (length (posts tr2) <= 1)%nat.
Proof.
  unfold tryCreate. repeat case_match; intros ?; simplify_eq; vm_compute; lia.
Qed.

Lemma posts_other st e :
  (forall body t, e <> PostUsers body t) -> posts [(st, e)] = [].
Proof. intros He. destruct e; try done. by destruct (He body Token). Qed.

Lemma expiredAlerts_expired st :
  expiredAlerts [(st, Alert TOKEN_EXPIRED_MESSAGE)] = [TOKEN_EXPIRED_MESSAGE].
Proof. reflexivity. Qed.

(** X6: the flow never sends the creation request again without telling
    the operator: in every run, complete or not, the creation requests
    sent are at most one more than the "token has expired" alerts
    shown. *)
Theorem resubmission_is_announced script : forall cl values st,
  (length (posts (trace (reqCreateUser cl values script st)))
   <= S (length (expiredAlerts (trace (reqCreateUser cl values script st)))))%nat.
Proof.
  induction script as [|srv rest IH]; intros cl values st; [vm_compute; lia|].
  cbn [reqCreateUser].
  destruct (truthy (tokenRef st)) as [t|].
  2: destruct (tokenReply srv) as [t|]; [|vm_compute; lia].
  all: match goal with
       | |- context [tryCreate ?c ?v ?s ?t ?x] =>
           destruct (tryCreate c v s t x) as [[st2 tr2] e] eqn:Htry;
           pose proof (tryCreate_posts _ _ _ _ _ _ _ _ Htry) as Hle
       end.
  all: repeat case_match; cbn [trace]; cbn zeta.
  all: rewrite ?posts_app, ?expiredAlerts_app, ?length_app, ?expiredAlerts_expired.
  all: rewrite ?posts_other by done.
  all: change (posts []) with (@nil (State * Event)).
  all: try match goal with
           | |- context [reqCreateUser ?c ?v _ ?x] => pose proof (IH c v x)
           end.
  all: cbn [length]; lia.
Qed.

(** ** Success is reported exactly when a user was added *)

Lemma tryCreate_threw_alerts cl values srv t st st2 tr2 error :
  tryCreate cl values srv t st = (st2, tr2, Some error) -> alerts tr2 = [].
Proof. unfold tryCreate. repeat case_match; intros ?; simplify_eq; done. Qed.

Lemma created_not_other :
  CREATED_MESSAGE <> TOKEN_ERROR_MESSAGE /\ CREATED_MESSAGE <> TOKEN_EXPIRED_MESSAGE.
Proof. split; discriminate. Qed.

(** X7: a run of [reqCreateUser] either shows "Successfully created
    user", resolves and has put exactly one user in front of the list, or
    does not show it and leaves the list as it was. *)
Theorem created_alert_iff_user_added script : forall cl values st,
  (CREATED_MESSAGE ∈ alerts (trace (reqCreateUser cl values script st))
   /\ outcome (reqCreateUser cl values script st) = Resolved
   /\ (exists created,
         users (final (reqCreateUser cl values script st)) = created :: users st))
  \/ ((CREATED_MESSAGE ∉ alerts (trace (reqCreateUser cl values script st)))
      /\ users (final (reqCreateUser cl values script st)) = users st).
Proof.
  destruct created_not_other as [Hne1 Hne2].
  induction script as [|srv rest IH]; intros cl values st.
  { right. split; [apply not_elem_of_nil|done]. }
  cbn [reqCreateUser].
  destruct (truthy (tokenRef st)) as [t|] eqn:Ht.
  2: destruct (tokenReply srv) as [t|].
  3: { right. cbn [trace final].
       destruct (togglePopCreateUser_fields cl st) as (-> & _).
       split; [|done]. compute_done. }
  all: destruct_tryCreate.
  2,4: apply tryCreate_done in Htry as (? & ? & user & _ & _ & _ & -> & ->);
       left; cbn [trace final outcome setToken users];
       match goal with
       | |- context [togglePopCreateUser ?c ?x] =>
           destruct (togglePopCreateUser_fields c x) as (-> & _)
       end;
       (split_and!; [|done|by exists user]);
       rewrite alerts_app; apply elem_of_app; right; cbn; left.
  all: pose proof (tryCreate_threw_alerts _ _ _ _ _ _ _ _ Htry) as Hal.
  all: apply tryCreate_threw in Htry as ->.
  all: repeat case_match; cbn [trace final outcome]; cbn zeta.
  all: rewrite ?alerts_app, ?Hal.
  all: try (right; split; [cbn; apply not_elem_of_nil|]; cbn [setToken users];
            first [done
                  | by match goal with
                       | |- context [setFieldErrors ?l ?x] =>
                           destruct (setFieldErrors_fields l x) as (-> & _)
                       end]).
  all: match goal with
       | |- context [reqCreateUser ?c ?v _ ?x] =>
           destruct (IH c v x) as [(Hin & Ho & created & Hus)|(Hnin & Hus)];
           [left; split_and!; [|done|exists created]
           |right; split]
       end.
  all: rewrite ?Hus; cbn [setToken users];
       try match goal with
           | |- context [setFieldErrors ?l ?x] =>
               destruct (setFieldErrors_fields l x) as (-> & _)
           end; try done.
  all: cbn; rewrite ?elem_of_cons, ?not_elem_of_cons; tauto.
Qed.

(** ** What the create-user flow leaves alone *)

Lemma sameListing_refl st : sameListing st st.
Proof. by unfold sameListing. Qed.

Lemma sameListing_trans st1 st2 st3 :
  sameListing st1 st2 -> sameListing st2 st3 -> sameListing st1 st3.
Proof.
  unfold sameListing. intros (-> & -> & -> & ->) (-> & -> & -> & ->). done.
Qed.

Lemma setSeen_sameListing b st : sameListing st (setSeen b st).
Proof. unfold setSeen. by destruct (Bool.eqb b (seen st)). Qed.

Lemma setFieldErrors_sameListing entries : forall st,
  sameListing st (setFieldErrors entries st).
Proof.
  induction entries as [|kv entries IH]; intros st; [apply sameListing_refl|].
  rewrite setFieldErrors_cons.
  eapply sameListing_trans; [|apply IH]. by unfold sameListing.
Qed.

Lemma setToken_sameListing v st st' : sameListing st st' -> sameListing st (setToken v st').
Proof. done. Qed.

Lemma tryCreate_sameListing cl values srv t st st2 tr2 e :
  tryCreate cl values srv t st = (st2, tr2, e) -> sameListing st st2.
Proof.
  destruct e as [error|]; intros H.
  - apply tryCreate_threw in H as ->. apply sameListing_refl.
  - apply tryCreate_done in H as (files & userId & user & _ & _ & _ & -> & _).
    apply (setSeen_sameListing (negb (cl_seen cl))
             (setUsers (fun currentUsers => user :: currentUsers) st)).
Qed.

(** X8: creating a user never disturbs the listing flow or the position
    control: whatever the service answers, a run of [reqCreateUser] leaves
    [currPage], [nextPage], [positions] and [selectedPosition] as they
    were. *)
Theorem creation_leaves_listing_alone script : forall cl values st,
  sameListing st (final (reqCreateUser cl values script st)).
Proof.
  induction script as [|srv rest IH]; intros cl values st; [apply sameListing_refl|].
  cbn [reqCreateUser].
  destruct (truthy (tokenRef st)) as [t|].
  2: destruct (tokenReply srv) as [t|]; [|apply setSeen_sameListing].
  all: match goal with
       | |- context [tryCreate ?c ?v ?s ?t ?x] =>
           destruct (tryCreate c v s t x) as [[st2 tr2] e] eqn:Htry;
           pose proof (tryCreate_sameListing _ _ _ _ _ _ _ _ Htry) as Hsame
       end.
  all: repeat case_match; cbn [final]; cbn zeta.
  all: try (eapply sameListing_trans; [|apply IH]).
  all: repeat apply setToken_sameListing.
  all: try (eapply sameListing_trans; [|apply setFieldErrors_sameListing]).
  all: exact Hsame.
Qed.

(** ** Submissions in sequence *)

(** X9: a submission that has ended leaves no usable token behind, so
    the next submission never reuses a token: granted a token and with the
    photo input attached, it starts with [GET /token] and sends its
    creation request under the token just granted. *)
Theorem next_submission_fetches_token cl values script st cl' values' srv rest files t :
  outcome (reqCreateUser cl values script st) <> Pending ->
  fileRef (final (reqCreateUser cl values script st)) = Some files ->
  tokenReply srv = Some t ->
  exists tail,
    trace (reqCreateUser cl' values' (srv :: rest)
             (final (reqCreateUser cl values script st)))
    = (final (reqCreateUser cl values script st), GetToken)
      :: (setToken (Some t) (final (reqCreateUser cl values script st)),
          PostUsers (payload cl' values' files) t) :: tail.
Proof.
  intros Hp Hf Hr.
  apply reqCreateUser_fetches_token; [|done..].
  destruct (reqCreateUser_token script cl values st Hp) as [[-> _]|(-> & _ & Ht)]; [done|].
  by destruct (togglePopCreateUser_fields cl st) as (_ & -> & _).
Qed.

Lemma next_submission_fetches_token_witness :
  exists tail,
    trace (reqCreateUser (render formOpen) aliceValues ([answersCreated "t2"])
             (final (reqCreateUser (render formOpen) aliceValues [answersInvalid] formOpen)))
    = (final (reqCreateUser (render formOpen) aliceValues [answersInvalid] formOpen),
       GetToken)
      :: (setToken (Some "t2")
            (final (reqCreateUser (render formOpen) aliceValues [answersInvalid] formOpen)),
          PostUsers (payload (render formOpen) aliceValues [portrait]) "t2") :: tail.
Proof.
  apply (next_submission_fetches_token (render formOpen) aliceValues [answersInvalid]
           formOpen (render formOpen) aliceValues (answersCreated "t2") [] [portrait] "t2").
  - vm_compute. discriminate.
  - reflexivity.
  - reflexivity.
Defined.

(** X10: the token fetched by a click on "Create new User" (lines
    148-158) is the one the first submission sends: from a closed form and
    a non-empty token, the click opens the form with the token held and a
    photo input without a file, and a submission made then starts with
    the creation request under that token - no second [GET /token] - with
    no photo in its body. *)
Theorem click_then_submit_sends_click_token values srv rest st t :
  seen st = false ->
  t <> "" ->
  seen (final (onClickUserCreate (render st) (Some t) st)) = true
  /\ tokenRef (final (onClickUserCreate (render st) (Some t) st)) = Some t
  /\ p_photo (payload (render (final (onClickUserCreate (render st) (Some t) st)))
                values []) = None
  /\ exists tail,
       trace (submit values (srv :: rest)
                (final (onClickUserCreate (render st) (Some t) st)))
       = (final (onClickUserCreate (render st) (Some t) st),
          PostUsers (payload (render (final (onClickUserCreate (render st) (Some t) st)))
                       values []) t) :: tail.
Proof.
  intros Hseen Ht.
  assert (final (onClickUserCreate (render st) (Some t) st)
          = {| currPage := currPage st; nextPage := nextPage st; users := users st;
               seen := true; token := Some t; positions := positions st;
               selectedPosition := selectedPosition st; tokenRef := Some t;
               fileRef := Some []; formErrors := ∅ |}) as ->.
  { cbn [onClickUserCreate final]. unfold togglePopCreateUser, setSeen.
    cbn [render cl_seen setToken seen]. by rewrite Hseen. }
  split_and!; [done..|].
  unfold submit. cbn [seen].
  apply reqCreateUser_sends_held; [|done].
  cbn [tokenRef truthy]. by apply String.eqb_neq in Ht as ->.
Qed.

Lemma click_then_submit_sends_click_token_witness :
  tokenRef (final (onClickUserCreate (render initialState) (Some "t0") initialState))
  = Some "t0".
Proof.
  refine (proj1 (proj2 (click_then_submit_sends_click_token aliceValues
                          (answersCreated "t1") [] initialState "t0" _ _))).
  - reflexivity.
  - discriminate.
Defined.

(** * Further properties of the listing flow *)

(** X11: a page fetch that fails while its request is neither cancelled
    nor settled shows the connection alert once and changes nothing else:
    the list of users and both cursors stay as they are. *)
Theorem failed_page_fetch_warns s i rq :
  pageRequests s !! i = Some rq ->
  rq_cancelled rq = false ->
  rq_settled rq = false ->
  app (step (PageAnswer i None) s) = app s
  /\ alerts (history (step (PageAnswer i None) s))
     = alerts (history s) ++ [CONNECTION_MESSAGE].
Proof.
  intros Hi Hc Hs. cbn [step]. rewrite Hi, Hs. unfold settle. rewrite Hc.
  cbn [onUsersSettled app history]. split; [done|]. by rewrite alerts_app.
Qed.

Lemma failed_page_fetch_warns_witness :
  alerts (history (step (PageAnswer 0 None) (runSession [Mount] initialSession)))
  = alerts (history (runSession [Mount] initialSession)) ++ [CONNECTION_MESSAGE].
Proof.
  refine (proj2 (failed_page_fetch_warns (runSession [Mount] initialSession) 0
                   (newRequest (currPage initialState)) _ _ _)); reflexivity.
Defined.

(** X12: the cleanup of the page-fetch effect (lines 107-109) keeps at
    most one page request alive: in every session, two page requests that
    are not cancelled are the same request, the latest one, and the
    component is mounted. *)
Theorem at_most_one_live_page_request actions i j rq rq' :
  pageRequests (runSession actions initialSession) !! i = Some rq ->
  pageRequests (runSession actions initialSession) !! j = Some rq' ->
  rq_cancelled rq = false ->
  rq_cancelled rq' = false ->
  i = j
  /\ S i = length (pageRequests (runSession actions initialSession))
  /\ mounted (runSession actions initialSession) = true.
Proof.
  intros Hi Hj Hc Hc'.
  assert (supersededCancelled (runSession actions initialSession)) as Hinv
    by (apply runSession_supersededCancelled; intros k r Hl; done).
  assert (forall k r, pageRequests (runSession actions initialSession) !! k = Some r ->
                      rq_cancelled r = false ->
                      S k = length (pageRequests (runSession actions initialSession))
                      /\ mounted (runSession actions initialSession) = true) as Hlast.
  { intros k r Hk Hr. pose proof (lookup_lt_Some _ _ _ Hk) as Hlt.
    destruct (decide (S k < length (pageRequests (runSession actions initialSession)))%nat)
      as [Hsup|Hsup].
    { rewrite (Hinv k r Hk) in Hr; [done|by left]. }
    destruct (mounted (runSession actions initialSession)) eqn:Hm.
    - split; [lia|done].
    - rewrite (Hinv k r Hk) in Hr; [done|by right]. }
  destruct (Hlast i rq Hi Hc) as [Hli Hm], (Hlast j rq' Hj Hc') as [Hlj _].
  split_and!; [lia|done..].
Qed.

Lemma at_most_one_live_page_request_witness :
  mounted (runSession [Mount; PageAnswer 0 (Some (page [alice] (Some "p2"))); ClickShowMore]
             initialSession) = true.
Proof.
  refine (proj2 (proj2 (at_most_one_live_page_request
            [Mount; PageAnswer 0 (Some (page [alice] (Some "p2"))); ClickShowMore]
            1 1 (newRequest "p2") (newRequest "p2") _ _ _ _))); reflexivity.
Defined.

(** ** "Show more" *)

Lemma showMoreInert_step s : showMoreInert s = true -> step ClickShowMore s = s.
Proof.
  unfold showMoreInert. cbn [step].
  destruct (mounted s); cbn [negb orb]; [|done].
  destruct (truthy (nextPage (app s))) as [url|]; [|done]. by intros ->.
Qed.

Lemma showMoreInert_after_click s : showMoreInert (step ClickShowMore s) = true.
Proof.
  cbn [step]. destruct (mounted s) eqn:Hm; cbn [negb].
  2: { unfold showMoreInert. by rewrite Hm. }
  destruct (truthy (nextPage (app s))) as [url|] eqn:Hn.
  2: { unfold showMoreInert. by rewrite Hm, Hn. }
  destruct (String.eqb url (currPage (app s))) eqn:He.
  - unfold showMoreInert. by rewrite Hm, Hn, He.
  - unfold showMoreInert, mounted. cbn [phase app setCurrPage nextPage currPage negb orb].
    by rewrite Hn, String.eqb_refl.
Qed.

Lemma showMoreInert_failed i s :
  showMoreInert s = true -> showMoreInert (step (PageAnswer i None) s) = true.
Proof.
  intros H. cbn [step].
  destruct (pageRequests s !! i) as [rq|]; [|done].
  destruct (rq_settled rq); [done|].
  unfold settle. by destruct (rq_cancelled rq).
Qed.

(** X13: a second click on "Show more" fetches nothing: once the button
    has been clicked, further clicks change nothing - no new request, no
    change of cursor - until a page fetch succeeds, however many page
    requests fail in between.  In particular a page whose fetch failed
    cannot be asked for again with the button. *)
Theorem show_more_waits_for_a_page indices s :
  step ClickShowMore (runSession (failedAnswers indices) (step ClickShowMore s))
  = runSession (failedAnswers indices) (step ClickShowMore s).
Proof.
  apply showMoreInert_step.
  generalize (showMoreInert_after_click s). generalize (step ClickShowMore s).
  induction indices as [|i indices IH]; intros s' Hs'; [done|].
  apply (IH (step (PageAnswer i None) s')). by apply showMoreInert_failed.
Qed.

(** X14: the cursor follows the service: after a page fetch has
    succeeded with a non-empty [next_url] other than the current cursor,
    a click on "Show more" makes that address the cursor and issues
    exactly one request, for that address, which becomes the latest page
    request; the users of the fetched page stay appended. *)
Theorem show_more_requests_next_url s i rq res url :
  mounted s = true ->
  pageRequests s !! i = Some rq ->
  rq_cancelled rq = false ->
  rq_settled rq = false ->
  next_url (links res) = Some url ->
  url <> "" ->
  url <> currPage (app s) ->
  currPage (app (step ClickShowMore (step (PageAnswer i (Some res)) s))) = url
  /\ users (app (step ClickShowMore (step (PageAnswer i (Some res)) s)))
     = users (app s) ++ page_users res
  /\ history (step ClickShowMore (step (PageAnswer i (Some res)) s))
     = history s
       ++ [(app (step ClickShowMore (step (PageAnswer i (Some res)) s)), GetUsers url)]
  /\ last (pageRequests (step ClickShowMore (step (PageAnswer i (Some res)) s)))
     = Some (newRequest url).
Proof.
  intros Hm Hi Hc Hs Hnext Hne Hcur.
  assert (step (PageAnswer i (Some res)) s
          = {| app := setNextPage (Some url)
                        (setUsers (fun currentUsers => currentUsers ++ page_users res) (app s));
               phase := phase s;
               pageRequests := <[i := markSettled rq]> (pageRequests s);
               positionsRequest := positionsRequest s;
               history := history s ++ [] |}) as ->.
  { cbn [step]. rewrite Hi, Hs. unfold settle. rewrite Hc.
    cbn [onUsersSettled]. by rewrite Hnext. }
  cbn [step]. unfold mounted in *. cbn [phase]. rewrite Hm. cbn [negb app].
  cbn [setNextPage nextPage truthy currPage setUsers].
  apply String.eqb_neq in Hne as ->. apply String.eqb_neq in Hcur as ->.
  cbn [app history pageRequests setCurrPage currPage users].
  split_and!; [done|done|by rewrite app_nil_r|apply last_snoc].
Qed.

Lemma show_more_requests_next_url_witness :
  currPage (app (step ClickShowMore
                   (step (PageAnswer 0 (Some (page [alice] (Some "p2"))))
                      (runSession [Mount] initialSession)))) = "p2".
Proof.
  refine (proj1 (show_more_requests_next_url (runSession [Mount] initialSession) 0
                   (newRequest (currPage initialState)) (page [alice] (Some "p2")) "p2"
                   _ _ _ _ _ _ _)); try reflexivity.
  all: discriminate.
Defined.

(** * Further invariants of a session *)

(** ** The positions *)

(** X17: the list of positions is written by the positions fetch only
    (line 119): an action of a session leaves it as it is, unless it is
    the answer to the positions request, which may replace it by the list
    the service sent. *)
Theorem positions_set_by_their_fetch_only a s :
  positionsUpdate a (positions (app s)) (positions (app (step a s))).
Proof.
  destruct a as [| |i answer|answer| |reply| |o|files|values script];
    cbn [positionsUpdate step].
  - by destruct (phase s).
  - by destruct (mounted s).
  - destruct (pageRequests s !! i) as [rq|]; [|done].
    destruct (rq_settled rq); [done|].
    unfold settle. destruct (rq_cancelled rq); [done|]. by destruct answer.
  - destruct (positionsRequest s) as [rq|]; [|by left].
    destruct (rq_settled rq); [by left|].
    unfold settle. destruct (rq_cancelled rq); [by left|].
    destruct answer as [res|]; [by right|by left].
  - destruct (mounted s); [|done]. cbn [negb].
    destruct (truthy (nextPage (app s))) as [url|]; [|done].
    by destruct (String.eqb url (currPage (app s))).
  - destruct (mounted s); [|done]. cbn [negb withApp app].
    destruct reply as [t|]; [|done]. cbn [onClickUserCreate final].
    unfold togglePopCreateUser.
    by destruct (setSeen_sameListing (negb (cl_seen (render (app s))))
                   (setToken (Some t) (app s))) as (_ & _ & -> & _).
  - destruct (mounted s); [|done]. cbn [negb].
    destruct (seen (app s)); [|done]. cbn [withApp app].
    unfold togglePopCreateUser.
    by destruct (setSeen_sameListing (negb (cl_seen (render (app s)))) (app s))
      as (_ & _ & -> & _).
  - destruct (mounted s); [|done]. cbn [negb]. by destruct (seen (app s)).
  - destruct (mounted s); [|done]. cbn [negb]. by destruct (seen (app s)).
  - destruct (mounted s); [|done]. cbn [negb withApp app]. unfold submit.
    destruct (seen (app s)); [|done].
    by destruct (creation_leaves_listing_alone script (render (app s)) values
                   (resetFieldErrors (app s))) as (_ & _ & -> & _).
Qed.

(** ** The alerts of the create-user flow *)

(** X18: the create-user flow has three alerts - "Cannot authorize
    ...", "Your token has expired ..." and "Successfully created user" -
    and shows no other: whatever fails, a submission never shows the
    "Check your internet connection" alert of the listing flow. *)
Theorem creation_shows_its_own_alerts_only script : forall cl values st,
  Forall (fun m => m ∈ creationAlerts) (alerts (trace (reqCreateUser cl values script st)))
  /\ CONNECTION_MESSAGE ∉ alerts (trace (reqCreateUser cl values script st)).
Proof.
  assert (CONNECTION_MESSAGE ∉ creationAlerts) as Hconn by compute_done.
  assert (forall cl values st,
            Forall (fun m => m ∈ creationAlerts)
              (alerts (trace (reqCreateUser cl values script st)))) as Hall.
  { induction script as [|srv rest IH]; intros cl values st; [constructor|].
    cbn [reqCreateUser].
    destruct (truthy (tokenRef st)) as [t|].
    2: destruct (tokenReply srv) as [t|];
         [|repeat constructor; compute_done].
    all: match goal with
         | |- context [tryCreate ?c ?v ?s ?t ?x] =>
             destruct (tryCreate c v s t x) as [[st2 tr2] [error|]] eqn:Htry;
             [pose proof (tryCreate_threw_alerts _ _ _ _ _ _ _ _ Htry) as Hal
             |apply tryCreate_done in Htry as (? & ? & ? & _ & _ & _ & _ & ->)]
         end.
    all: repeat case_match; cbn [trace]; cbn zeta.
    all: rewrite ?alerts_app, ?Hal.
    all: repeat (apply Forall_app; split); try apply IH.
    all: repeat constructor; compute_done. }
  intros cl values st. split; [apply Hall|].
  intros Hin. apply Hconn. by eapply Forall_forall in Hin; [|apply Hall].
Qed.
